(** * smallsh: a shallow embedding of the command/process lifecycle

    The definitions follow [smallsh.h], [smallsh.c] and [UTL_smallsh.c].
    C strings are [string]s (the terminating NUL is implicit), heap blocks
    are [list ascii] with the NUL bytes written out, [int]/[pid_t] values
    are [Z], and the operating system is an explicit oracle: whatever
    [fork], [waitpid], [open], [chdir] and [calloc] answer is an argument
    of the function that calls them, and what the shell does to the outside
    world is the list of [event]s it returns. *)

From Stdlib Require Import ZArith List String Ascii Bool Lia DecimalString.
Import ListNotations.

Local Open Scope string_scope.
Local Open Scope list_scope.

(** ** smallsh.h *)

Definition BUF_SIZE : nat := 2049.
Definition MAX_ARGS : nat := 512.
Definition MAX_CHILDREN : nat := 10.

Definition PID_VAR : string := "$$".
Definition INPUT : string := "<".
Definition OUTPUT : string := ">".
Definition BACKGROUND : string := "&".

Definition COMMENT : string := "#".
Definition COMMENT_LEN : nat := 1.
Definition CD_CMD : string := "cd".
Definition CD_LEN : nat := 3.
Definition EXIT_CMD : string := "exit".
Definition EXIT_LEN : nat := 5.
Definition STATUS_CMD : string := "status".
Definition STATUS_LEN : nat := 7.
Definition HOME_ENV : string := "HOME".

Definition DEV_NULL : string := "/dev/null".

Definition EXIT_SUCCESS : Z := 0%Z.
Definition EXIT_FAILURE : Z := 1%Z.

(** [args] is the non-NULL prefix of the array [args[MAX_ARGS]]: the parser
    fills the array from index 0 without gaps and [main] zeroes it before
    each line, so every slot after the prefix is NULL.  A NULL [input] or
    [output] pointer is [None]. *)
Record cmdStruct : Type := mkCmd {
  args : list string;
  input : option string;
  output : option string;
  isRedirectInput : bool;
  isRedirectOutput : bool;
  isBackground : bool
}.

(** ** The C library, as far as the shell uses it *)

Module CLib.

Definition NUL : ascii := Ascii.zero.

Definition strlen (s : string) : nat := String.length s.

(** [strncmp]: only the sign of the result is specified.  A character of a
    C string is never NUL, so a string that goes on is greater than one
    that has ended. *)
Fixpoint strncmp (s1 s2 : string) (n : nat) {struct n} : Z :=
  match n with
  | O => 0%Z
  | S n' =>
      match s1, s2 with
      | EmptyString, EmptyString => 0%Z
      | EmptyString, String _ _ => (-1)%Z
      | String _ _, EmptyString => 1%Z
      | String c1 r1, String c2 r2 =>
          if (c1 =? c2)%char then strncmp r1 r2 n'
          else if (nat_of_ascii c1 <? nat_of_ascii c2)%nat then (-1)%Z else 1%Z
      end
  end.

(** The conversion [%d] of the [printf] family, and
    [snprintf( str, size, "%d", z )]: the decimal digits of [z], cut to the
    [size - 1] characters that fit before the terminator. *)
Definition fmt_d (z : Z) : string := NilZero.string_of_int (Z.to_int z).

Definition snprintf_d (size : nat) (z : Z) : string :=
  String.substring 0 (size - 1) (fmt_d z).

(** The newline character as a string. *)
Definition nl : string := String "010" EmptyString.

(** A heap block of [n] bytes, all zero. *)
Definition calloc (n : nat) : list ascii := repeat NUL n.

(** [block[i] = c].  A store outside the block is undefined behaviour:
    [None]. *)
Definition store (block : list ascii) (i : nat) (c : ascii) : option (list ascii) :=
  if (i <? List.length block)%nat
  then Some (firstn i block ++ c :: skipn (S i) block)
  else None.

Fixpoint store_all (block : list ascii) (i : nat) (cs : list ascii) : option (list ascii) :=
  match cs with
  | [] => Some block
  | c :: cs' =>
      match store block i c with
      | Some block' => store_all block' (S i) cs'
      | None => None
      end
  end.

(** The index of the first NUL of the block; [None] when the block holds
    none, where a C string function would run past its end. *)
Fixpoint find_nul (block : list ascii) : option nat :=
  match block with
  | [] => None
  | c :: rest =>
      if (c =? NUL)%char then Some O
      else option_map S (find_nul rest)
  end.

(** [strncat( dest, src, n )]: at most [n] characters of [src] go after the
    string in [dest], and a terminator after them. *)
Definition strncat (dest : list ascii) (src : string) (n : nat) : option (list ascii) :=
  match find_nul dest with
  | Some e => store_all dest e (firstn n (list_ascii_of_string src) ++ [NUL])
  | None => None
  end.

(** The C string a block holds from its first byte on. *)
Definition string_at (block : list ascii) : option string :=
  match find_nul block with
  | Some e => Some (string_of_list_ascii (firstn e block))
  | None => None
  end.

End CLib.

(** ** ExpandPID *)

(** The loop of [ExpandPID].  [arg] is what is left of the argument from
    [argIdx] on; [lp_newArg] is the block and [newArgIdx] the index the
    next copied character goes to. *)
Fixpoint ExpandPID_loop (pidStr : string) (pidLen : nat) (arg : string)
    (lp_newArg : list ascii) (newArgIdx : nat) : option (list ascii) :=
  match arg with
  | EmptyString => Some lp_newArg
  | String c rest =>
      match rest with
      | String c' rest' =>
          if ((c =? "$")%char && (c' =? "$")%char)%bool then
            match CLib.strncat lp_newArg pidStr pidLen with
            | Some block => ExpandPID_loop pidStr pidLen rest' block (newArgIdx + pidLen)
            | None => None
            end
          else
            match CLib.store lp_newArg newArgIdx c with
            | Some block => ExpandPID_loop pidStr pidLen rest block (newArgIdx + 1)
            | None => None
            end
      | EmptyString =>
          match CLib.store lp_newArg newArgIdx c with
          | Some block => ExpandPID_loop pidStr pidLen rest block (newArgIdx + 1)
          | None => None
          end
      end
  end.

(** [ExpandPID] for the process [pid]: the string the returned block holds,
    or [None] when a store left the block or the block ends up without a
    terminator (undefined behaviour in C).  This is the function from the
    point where [calloc] has returned a block; the branch for a NULL from
    [calloc] is with the caller of [ExpandPID], in [ParseCommand_loop]. *)
Definition ExpandPID (pid : Z) (arg : string) : option string :=
  let n := CLib.strlen arg in
  let pidStr := CLib.snprintf_d 18 pid in
  let pidLen := CLib.strlen pidStr in
  let lp_newArg := CLib.calloc ((n / 2) * pidLen + 1) in
  match ExpandPID_loop pidStr pidLen arg lp_newArg 0 with
  | Some block => CLib.string_at block
  | None => None
  end.

(** The characters the loop of [ExpandPID] writes, in the order it writes
    them: what the block holds when it is large enough for them. *)
Fixpoint ExpandPID_text (pidStr : string) (arg : string) : string :=
  match arg with
  | EmptyString => EmptyString
  | String c rest =>
      match rest with
      | String c' rest' =>
          if ((c =? "$")%char && (c' =? "$")%char)%bool
          then pidStr ++ ExpandPID_text pidStr rest'
          else String c (ExpandPID_text pidStr rest)
      | EmptyString => String c EmptyString
      end
  end.

(** [pidStr] of [ExpandPID] for the shell process [pid]. *)
Definition pid_string (pid : Z) : string := CLib.snprintf_d 18 pid.

(** ** Tokens: [strtok] *)

Definition is_delim (delim : string) (c : ascii) : bool :=
  existsb (Ascii.eqb c) (list_ascii_of_string delim).

Fixpoint skip_delims (delim : string) (s : string) : string :=
  match s with
  | EmptyString => EmptyString
  | String c rest => if is_delim delim c then skip_delims delim rest else s
  end.

(** The token at the head of [s] and what follows the delimiter that ends
    it ([strtok] overwrites that delimiter with NUL and remembers the
    position after it). *)
Fixpoint take_token (delim : string) (s : string) : string * string :=
  match s with
  | EmptyString => (EmptyString, EmptyString)
  | String c rest =>
      if is_delim delim c then (EmptyString, rest)
      else let (tok, rest') := take_token delim rest in (String c tok, rest')
  end.

(** One call of [strtok]: [None] is the NULL of "no more tokens"; the second
    component is the saved position the next call ([strtok( NULL, .. )])
    starts from. *)
Definition strtok (s : string) (delim : string) : option (string * string) :=
  match skip_delims delim s with
  | EmptyString => None
  | String c rest => Some (take_token delim (String c rest))
  end.

(** ** Module variables *)

Record shell : Type := mkShell {
  childPids : list Z;
  childStatus : Z;
  backgroundIgnoreSet : bool;
  backgroundUnignoreSet : bool;
  childTerminated : bool;
  foregroundChild : bool;
  ignoreBackground : bool
}.

Definition initial_shell : shell :=
  {| childPids := repeat 0%Z MAX_CHILDREN;
     childStatus := 0%Z;
     backgroundIgnoreSet := false;
     backgroundUnignoreSet := false;
     childTerminated := false;
     foregroundChild := false;
     ignoreBackground := false |}.

Definition set_childPids (v : list Z) (s : shell) : shell :=
  mkShell v (childStatus s) (backgroundIgnoreSet s) (backgroundUnignoreSet s)
          (childTerminated s) (foregroundChild s) (ignoreBackground s).
Definition set_childStatus (v : Z) (s : shell) : shell :=
  mkShell (childPids s) v (backgroundIgnoreSet s) (backgroundUnignoreSet s)
          (childTerminated s) (foregroundChild s) (ignoreBackground s).
Definition set_backgroundIgnoreSet (v : bool) (s : shell) : shell :=
  mkShell (childPids s) (childStatus s) v (backgroundUnignoreSet s)
          (childTerminated s) (foregroundChild s) (ignoreBackground s).
Definition set_backgroundUnignoreSet (v : bool) (s : shell) : shell :=
  mkShell (childPids s) (childStatus s) (backgroundIgnoreSet s) v
          (childTerminated s) (foregroundChild s) (ignoreBackground s).
Definition set_childTerminated (v : bool) (s : shell) : shell :=
  mkShell (childPids s) (childStatus s) (backgroundIgnoreSet s) (backgroundUnignoreSet s)
          v (foregroundChild s) (ignoreBackground s).
Definition set_foregroundChild (v : bool) (s : shell) : shell :=
  mkShell (childPids s) (childStatus s) (backgroundIgnoreSet s) (backgroundUnignoreSet s)
          (childTerminated s) v (ignoreBackground s).
Definition set_ignoreBackground (v : bool) (s : shell) : shell :=
  mkShell (childPids s) (childStatus s) (backgroundIgnoreSet s) (backgroundUnignoreSet s)
          (childTerminated s) (foregroundChild s) v.

(** ** ParseCommand *)

(** The struct as [main] hands it over: [memset] to zero. *)
Definition zeroed_cmd : cmdStruct :=
  {| args := []; input := None; output := None;
     isRedirectInput := false; isRedirectOutput := false; isBackground := false |}.

(** The locals of [ParseCommand] next to the struct it fills.  [argCount]
    is the length of [args (cmd st)]. *)
Record parse_state : Type := mkParse {
  cmd : cmdStruct;
  inputFlag : bool;
  outputFlag : bool
}.

Definition parse_start : parse_state :=
  {| cmd := zeroed_cmd; inputFlag := false; outputFlag := false |}.

(** The body of the [for] loop from the first test on: what the loop does
    with [lp_tempArg], the string [ExpandPID] returned for the token. *)
Definition ParseCommand_store (st : parse_state) (lp_tempArg : string)
    : parse_state :=
  let c := cmd st in
  if inputFlag st then
    {| cmd := mkCmd (args c) (Some lp_tempArg) (output c)
                    (isRedirectInput c) (isRedirectOutput c) (isBackground c);
       inputFlag := false; outputFlag := outputFlag st |}
  else if outputFlag st then
    {| cmd := mkCmd (args c) (input c) (Some lp_tempArg)
                    (isRedirectInput c) (isRedirectOutput c) (isBackground c);
       inputFlag := inputFlag st; outputFlag := false |}
  else if (CLib.strncmp lp_tempArg INPUT 2 =? 0)%Z then
    {| cmd := mkCmd (args c) (input c) (output c)
                    true (isRedirectOutput c) (isBackground c);
       inputFlag := true; outputFlag := outputFlag st |}
  else if (CLib.strncmp lp_tempArg OUTPUT 2 =? 0)%Z then
    {| cmd := mkCmd (args c) (input c) (output c)
                    (isRedirectInput c) true (isBackground c);
       inputFlag := inputFlag st; outputFlag := true |}
  else
    {| cmd := mkCmd (args c ++ [lp_tempArg]) (input c) (output c)
                    (isRedirectInput c) (isRedirectOutput c) (isBackground c);
       inputFlag := inputFlag st; outputFlag := outputFlag st |}.

(** The delimiters of the [strtok] call: a blank and a newline. *)
Definition blank_newline : string := String " " (String "010" EmptyString).

(** How a run of [ParseCommand] can go.  [Done]: it comes back.
    [NoMemory arg]: the [calloc] of [ExpandPID] returned NULL for the token
    [arg], and [ExpandPID] writes its message and calls
    [exit( EXIT_FAILURE )].  [Undefined]: [ExpandPID] has no defined result
    for a token, because a store left the block or the block holds no
    terminated string for the string functions that read it next. *)
Inductive outcome (A : Type) : Type :=
  | Done (a : A)
  | NoMemory (arg : string)
  | Undefined.
Arguments Done {A} a.
Arguments NoMemory {A} arg.
Arguments Undefined {A}.

(** [for( int i = 0; i < MAX_ARGS; i++ )]: [left] is [MAX_ARGS - i].
    [calloc_ok i] tells whether the [calloc] of the call of [ExpandPID] in
    pass [i] of the loop returns a block. *)
Fixpoint ParseCommand_loop (left : nat) (calloc_ok : nat -> bool) (i : nat)
    (pid : Z) (buf : string) (st : parse_state) : outcome parse_state :=
  match left with
  | O => Done st
  | S left' =>
      match strtok buf blank_newline with
      | None => Done st
      | Some (lp_arg, buf') =>
          if calloc_ok i then
            match ExpandPID pid lp_arg with
            | Some lp_tempArg =>
                ParseCommand_loop left' calloc_ok (S i) pid buf'
                                  (ParseCommand_store st lp_tempArg)
            | None => Undefined
            end
          else NoMemory lp_arg
      end
  end.

(** The check after the loop: [args[ argCount - 1 ]] is the last element of
    the list, and storing NULL there removes it. *)
Definition ParseCommand_background (ignoreBackground : bool) (c : cmdStruct)
    : cmdStruct :=
  match rev (args c) with
  | lastArg :: _ =>
      if (CLib.strncmp lastArg BACKGROUND 2 =? 0)%Z then
        mkCmd (removelast (args c)) (input c) (output c)
              (isRedirectInput c) (isRedirectOutput c)
              (if ignoreBackground then false else true)
      else c
  | [] => c
  end.

(** [ParseCommand] first clears the three flags of the struct, which the
    zeroed struct of [main] has clear already, and reads the module
    variable [ignoreBackground] after the loop. *)
Definition ParseCommand (calloc_ok : nat -> bool) (s : shell) (pid : Z)
    (buf : string) : outcome (Z * cmdStruct) :=
  match ParseCommand_loop MAX_ARGS calloc_ok 0 pid buf parse_start with
  | Done st => Done (EXIT_SUCCESS, ParseCommand_background (ignoreBackground s) (cmd st))
  | NoMemory arg => NoMemory arg
  | Undefined => Undefined
  end.

(** ** The wait status word (<sys/wait.h>, as glibc defines the macros) *)

Module Wait.

Definition WNOHANG : Z := 1%Z.

Definition WTERMSIG (status : Z) : Z := Z.land status 127.

Definition WEXITSTATUS (status : Z) : Z := Z.shiftr (Z.land status 65280) 8.

(** [WIFEXITED( status )] is the C truth value of [WTERMSIG( status ) == 0]. *)
Definition WIFEXITED (status : Z) : Z :=
  if (WTERMSIG status =? 0)%Z then 1%Z else 0%Z.

(** [((signed char) ((status & 0x7f) + 1) >> 1) > 0] *)
Definition WIFSIGNALED (status : Z) : bool :=
  let v := (Z.land status 127 + 1)%Z in
  let sc := if (128 <=? v)%Z then (v - 256)%Z else v in
  (0 <? Z.shiftr sc 1)%Z.

(** The word the kernel hands to [waitpid] for a child that called
    [exit( ret )], and for one killed by signal [sig]. *)
Definition W_EXITCODE (ret sig : Z) : Z := Z.lor (Z.shiftl (Z.land ret 255) 8) sig.
Definition exited_with (code : Z) : Z := W_EXITCODE code 0.
Definition killed_by (sig : Z) : Z := W_EXITCODE 0 sig.

End Wait.

(** ** The outside world *)

Inductive signal : Type := SIGINT | SIGCHLD | SIGTSTP | SIGTERM.

Inductive disposition : Type :=
  | SIG_DFL | SIG_IGN | Handler_SIGCHLD | Handler_SIGTSTP.

(** What a file descriptor refers to. *)
Inductive file : Type :=
  | Terminal
  | OpenFile (path : string) (flags : Z).

Definition fd_table : Type := list (Z * file).

Definition STDIN_FILENO : Z := 0%Z.
Definition STDOUT_FILENO : Z := 1%Z.
Definition STDERR_FILENO : Z := 2%Z.

Inductive event : Type :=
  | ev_stdout (text : string)
  | ev_stderr (text : string)
  | ev_err (eval : Z) (fmt : string) (arg : option string)
  | ev_sigaction (sig : signal) (act : disposition)
  | ev_fork (ret : Z)
  | ev_open (path : option string) (flags : Z) (ret : Z)
  | ev_dup2 (oldfd newfd : Z)
  | ev_close (fd : Z)
  | ev_execvp (file : option string) (argv : list string)
  | ev_kill (pid : Z) (sig : signal)
  | ev_waitpid (pid : Z) (options : Z)
  | ev_chdir (path : option string) (ret : Z)
  | ev_exit (status : Z).

(** The answers of the operating system during one pass of the loop of
    [main], in this process. *)
Record os : Type := mkOs {
  os_getpid : Z;
  (** the line [fgets] reads *)
  os_line : string;
  (** signals delivered while [fgets] waits for the line *)
  os_signals_at_prompt : list signal;
  (** what [fork] returns in this process: -1, 0 in the child, the child's
      pid in the parent *)
  os_fork : Z;
  (** signals delivered while the blocking [waitpid] of a foreground child
      waits *)
  os_signals_at_wait : list signal;
  (** the status word a blocking [waitpid( pid, .., 0 )] stores *)
  os_wait : Z -> Z;
  (** the children that successive [waitpid( -1, .., WNOHANG )] calls find
      terminated, each with its status word *)
  os_zombies : list (Z * Z);
  (** [open]: [None] when the file opens, the [errno] otherwise *)
  os_open : string -> Z -> option Z;
  (** whether [execvp] finds and starts the program *)
  os_execvp : string -> bool;
  (** whether [chdir] succeeds *)
  os_chdir : string -> bool;
  os_getenv : string -> option string;
  (** whether the [calloc] of the [i]-th call of [ExpandPID] returns a
      block *)
  os_calloc : nat -> bool
}.

(** How a run of a function of the shell leaves the process. *)
Inductive proc : Type :=
  | Running (s : shell)
  | Replaced (file : string) (argv : list string) (fds : fd_table)
  | Exited (status : Z).

(** ** The job table *)

Fixpoint AddChildPid_slots (slots : list Z) (pid : Z) : list Z :=
  match slots with
  | [] => []
  | slot :: rest =>
      if (slot =? 0)%Z then pid :: rest
      else slot :: AddChildPid_slots rest pid
  end.

Definition AddChildPid (pid : Z) (s : shell) : shell :=
  set_childPids (AddChildPid_slots (childPids s) pid) s.

Fixpoint RemoveChildPid_slots (slots : list Z) (pid : Z) : list Z :=
  match slots with
  | [] => []
  | slot :: rest =>
      if (slot =? pid)%Z then 0%Z :: rest
      else slot :: RemoveChildPid_slots rest pid
  end.

Definition RemoveChildPid (pid : Z) (s : shell) : shell :=
  set_childPids (RemoveChildPid_slots (childPids s) pid) s.

(** ** Signal handlers *)

Definition HandleSIGCHLD (s : shell) : shell * list event :=
  (set_childTerminated true s, []).

Definition HandleSIGTSTP (s : shell) : shell * list event :=
  if negb (ignoreBackground s) then
    let s1 := set_ignoreBackground true s in
    if foregroundChild s1 then (set_backgroundIgnoreSet true s1, [])
    else (s1, [ev_stdout (CLib.nl ++ "Entering foreground-only mode (& is now ignored)"
                          ++ CLib.nl ++ ": ")])
  else
    let s1 := set_ignoreBackground false s in
    if foregroundChild s1 then (set_backgroundUnignoreSet true s1, [])
    else (s1, [ev_stdout (CLib.nl ++ "Exiting foreground-only mode" ++ CLib.nl ++ ": ")]).

(** The dispositions [SetSignalHandlers] installs: SIGINT is ignored,
    SIGCHLD and SIGTSTP run their handlers; SIGTERM keeps its default and
    is not handled in the shell. *)
Definition deliver (sig : signal) (s : shell) : shell * list event :=
  match sig with
  | SIGCHLD => HandleSIGCHLD s
  | SIGTSTP => HandleSIGTSTP s
  | SIGINT | SIGTERM => (s, [])
  end.

Fixpoint deliver_all (sigs : list signal) (s : shell) : shell * list event :=
  match sigs with
  | [] => (s, [])
  | sig :: rest =>
      let (s1, ev1) := deliver sig s in
      let (s2, ev2) := deliver_all rest s1 in
      (s2, ev1 ++ ev2)
  end.

Definition SetSignalHandlers : list event :=
  [ev_sigaction SIGINT SIG_IGN;
   ev_sigaction SIGCHLD Handler_SIGCHLD;
   ev_sigaction SIGTSTP Handler_SIGTSTP].

(** ** UTL_smallsh.c: opening files *)

Definition O_RDONLY : Z := 0%Z.
Definition O_WRONLY : Z := 1%Z.
Definition O_CREAT : Z := 64%Z.
Definition O_TRUNC : Z := 512%Z.
Definition FILE_PERM : Z := 420%Z.
Definition EFAULT : Z := 14%Z.

(** The shell opens no file of its own: the descriptors a child starts
    with are the three the shell has. *)
Definition shell_fds : fd_table :=
  [(STDIN_FILENO, Terminal); (STDOUT_FILENO, Terminal); (STDERR_FILENO, Terminal)].

Definition fd_lookup (t : fd_table) (fd : Z) : option file :=
  match find (fun e => (fst e =? fd)%Z) t with
  | Some e => Some (snd e)
  | None => None
  end.

Definition fd_set (t : fd_table) (fd : Z) (f : file) : fd_table :=
  (fd, f) :: filter (fun e => negb (fst e =? fd)%Z) t.

Definition fd_unset (t : fd_table) (fd : Z) : fd_table :=
  filter (fun e => negb (fst e =? fd)%Z) t.

(** [open] returns the lowest descriptor not in use. *)
Fixpoint lowest_free (tries : nat) (fd : Z) (t : fd_table) : Z :=
  match tries with
  | O => fd
  | S tries' =>
      match fd_lookup t fd with
      | Some _ => lowest_free tries' (fd + 1)%Z t
      | None => fd
      end
  end.

(** The code that runs in a forked child: it has a descriptor table of its
    own, adds to the trace, and may end the process at any step. *)
Record child_state : Type := mkChild {
  c_fds : fd_table;
  c_trace : list event
}.

Inductive child_step (A : Type) : Type :=
  | Go (a : A) (st : child_state)
  | Halt (e : proc) (st : child_state).
Arguments Go {A} a st.
Arguments Halt {A} e st.

Definition child_m (A : Type) : Type := child_state -> child_step A.

Definition c_ret {A : Type} (a : A) : child_m A := fun st => Go a st.

Definition c_bind {A B : Type} (m : child_m A) (k : A -> child_m B) : child_m B :=
  fun st =>
    match m st with
    | Go a st' => k a st'
    | Halt e st' => Halt e st'
    end.

Notation "x <- m ;; k" := (c_bind m (fun x => k))
  (at level 61, m at next level, right associativity).
Notation "m ;;; k" := (c_bind m (fun _ => k))
  (at level 61, right associativity).

Definition c_emit (ev : event) : child_m unit :=
  fun st => Go tt (mkChild (c_fds st) (c_trace st ++ [ev])).

Definition c_exit {A : Type} (status : Z) : child_m A :=
  fun st => Halt (Exited status) (mkChild (c_fds st) (c_trace st ++ [ev_exit status])).

(** [open( fileName, flag, FILE_PERM )]: the descriptor, or -1 and [errno].
    A NULL path is a bad address. *)
Definition sys_open (o : os) (fileName : option string) (flag : Z)
    : child_m (Z * Z) :=
  fun st =>
    match fileName with
    | None =>
        Go ((-1)%Z, EFAULT)
           (mkChild (c_fds st) (c_trace st ++ [ev_open None flag (-1)%Z]))
    | Some path =>
        match os_open o path flag with
        | Some errno =>
            Go ((-1)%Z, errno)
               (mkChild (c_fds st) (c_trace st ++ [ev_open fileName flag (-1)%Z]))
        | None =>
            let fd := lowest_free (List.length (c_fds st)) 0%Z (c_fds st) in
            Go (fd, 0%Z)
               (mkChild (fd_set (c_fds st) fd (OpenFile path flag))
                        (c_trace st ++ [ev_open fileName flag fd]))
        end
    end.

Definition sys_dup2 (oldfd newfd : Z) : child_m unit :=
  fun st =>
    match fd_lookup (c_fds st) oldfd with
    | Some f =>
        Go tt (mkChild (fd_set (c_fds st) newfd f) (c_trace st ++ [ev_dup2 oldfd newfd]))
    | None => Go tt (mkChild (c_fds st) (c_trace st ++ [ev_dup2 oldfd newfd]))
    end.

Definition sys_close (fd : Z) : child_m unit :=
  fun st => Go tt (mkChild (fd_unset (c_fds st) fd) (c_trace st ++ [ev_close fd])).

(** [printf] shows a NULL string as "(null)". *)
Definition fmt_s (str : option string) : string :=
  match str with
  | Some text => text
  | None => "(null)"
  end.

(** [UTL_OpenFile].  The event [ev_err eval fmt arg] is the call
    [err( eval, fmt, arg )] of <err.h>: the library writes the program
    name, the message formatted from [fmt] and [arg], and the text of
    [errno] to the standard error stream, and ends the process with status
    [eval]. *)
Definition UTL_OpenFile (o : os) (fileName : option string)
    (isReadOnly isWriteOnly : bool) : child_m Z :=
  let flag :=
    if isReadOnly then O_RDONLY
    else if isWriteOnly then Z.lor (Z.lor O_WRONLY O_CREAT) O_TRUNC
    else 0%Z in
  r <- sys_open o fileName flag ;;
  if (fst r =? -1)%Z then
    c_emit (ev_err (snd r) ("Failed to open file %s." ++ CLib.nl) fileName) ;;;
    c_exit (snd r)
  else c_ret (fst r).

Definition OPEN_FILE_READ (o : os) (fp : option string) : child_m Z :=
  UTL_OpenFile o fp true false.
Definition OPEN_FILE_WRITE (o : os) (fp : option string) : child_m Z :=
  UTL_OpenFile o fp false true.

(** [execvp( file, argv )] returns (with -1) only if it fails. *)
Definition sys_execvp (o : os) (file : option string) (argv : list string)
    : child_m Z :=
  fun st =>
    let st' := mkChild (c_fds st) (c_trace st ++ [ev_execvp file argv]) in
    match file with
    | Some path =>
        if os_execvp o path then Halt (Replaced path argv (c_fds st)) st'
        else Go (-1)%Z st'
    | None => Go (-1)%Z st'
    end.

(** ** ExternalCommand *)

(** [case 0] of the [switch]: the child. *)
Definition ExternalCommand_child (o : os) (command : cmdStruct) : child_m Empty_set :=
  c_emit (ev_sigaction SIGCHLD SIG_DFL) ;;;
  c_emit (ev_sigaction SIGTSTP SIG_IGN) ;;;
  outputFd <- (if isRedirectOutput command then
                 fd <- OPEN_FILE_WRITE o (output command) ;;
                 sys_dup2 fd STDOUT_FILENO ;;;
                 c_ret fd
               else c_ret (-1)%Z) ;;
  inputFd <- (if isRedirectInput command then
                fd <- OPEN_FILE_READ o (input command) ;;
                sys_dup2 fd STDIN_FILENO ;;;
                c_ret fd
              else c_ret (-1)%Z) ;;
  fds <- (if negb (isBackground command) then
            c_emit (ev_sigaction SIGINT SIG_DFL) ;;;
            c_ret (outputFd, inputFd)
          else
            outputFd' <- (if negb (isRedirectOutput command) then
                            fd <- OPEN_FILE_WRITE o (Some DEV_NULL) ;;
                            sys_dup2 fd STDOUT_FILENO ;;;
                            c_ret fd
                          else c_ret outputFd) ;;
            inputFd' <- (if negb (isRedirectInput command) then
                           fd <- OPEN_FILE_READ o (Some DEV_NULL) ;;
                           sys_dup2 fd STDIN_FILENO ;;;
                           c_ret fd
                         else c_ret inputFd) ;;
            c_ret (outputFd', inputFd')) ;;
  r <- sys_execvp o (hd_error (args command)) (args command) ;;
  (if (r =? -1)%Z then
     c_emit (ev_stdout (fmt_s (hd_error (args command))
                        ++ ": no such file or directory" ++ CLib.nl))
   else c_ret tt) ;;;
  (if negb (fst fds =? -1)%Z then sys_close (fst fds) else c_ret tt) ;;;
  (if negb (snd fds =? -1)%Z then sys_close (snd fds) else c_ret tt) ;;;
  c_exit EXIT_FAILURE.

Definition run_child (m : child_m Empty_set) (st : child_state) : list event * proc :=
  match m st with
  | Go a _ => match a with end
  | Halt e st' => (c_trace st', e)
  end.

(** [default] of the [switch]: the parent, [pid] being the child. *)
Definition ExternalCommand_parent (o : os) (pid : Z) (command : cmdStruct) (s : shell)
    : list event * proc :=
  let s1 := AddChildPid pid s in
  if negb (isBackground command) then
    let s2 := set_foregroundChild true s1 in
    let (s3, notices) := deliver_all (os_signals_at_wait o) s2 in
    let s4 := set_childStatus (os_wait o pid) s3 in
    let s5 := RemoveChildPid pid s4 in
    let s6 := set_foregroundChild false s5 in
    if Wait.WIFSIGNALED (childStatus s6) then
      (notices ++ [ev_waitpid pid 0%Z;
                   ev_stdout ("terminated by signal "
                              ++ CLib.fmt_d (Wait.WTERMSIG (childStatus s6)) ++ CLib.nl)],
       Running s6)
    else if negb (childStatus s6 =? 0)%Z then
      (notices ++ [ev_waitpid pid 0%Z],
       Running (set_childStatus (Wait.WIFEXITED (childStatus s6)) s6))
    else
      (notices ++ [ev_waitpid pid 0%Z], Running s6)
  else
    ([ev_stdout ("background pid is " ++ CLib.fmt_d pid ++ CLib.nl)], Running s1).

Definition ExternalCommand (o : os) (command : cmdStruct) (s : shell)
    : list event * proc :=
  let pid := os_fork o in
  if (pid =? -1)%Z then
    ([ev_fork pid; ev_stderr ("Failed to fork child process" ++ CLib.nl)], Running s)
  else if (pid =? 0)%Z then
    run_child (ExternalCommand_child o command) (mkChild shell_fds [ev_fork pid])
  else
    let (evs, p) := ExternalCommand_parent o pid command s in
    (ev_fork pid :: evs, p).

(** ** Built-in commands *)

Definition MyChangeDir (o : os) (command : cmdStruct) (s : shell) : list event * proc :=
  match nth_error (args command) 1 with
  | None =>
      match os_getenv o HOME_ENV with
      | Some home =>
          if os_chdir o home then ([ev_chdir (Some home) 0%Z], Running s)
          else ([ev_chdir (Some home) (-1)%Z;
                 ev_stderr ("Failed to change directory to HOME environment variable."
                            ++ CLib.nl)], Running s)
      | None =>
          ([ev_chdir None (-1)%Z;
            ev_stderr ("Failed to change directory to HOME environment variable."
                       ++ CLib.nl)], Running s)
      end
  | Some path =>
      if os_chdir o path then ([ev_chdir (Some path) 0%Z], Running s)
      else ([ev_chdir (Some path) (-1)%Z;
             ev_stdout ("Invalid path " ++ path ++ CLib.nl)], Running s)
  end.

(** The loop of [MyExit] over the slots of the job table. *)
Fixpoint MyExit_loop (o : os) (slots : list Z) (s : shell) : shell * list event :=
  match slots with
  | [] => (s, [])
  | slot :: rest =>
      if negb (slot =? 0)%Z then
        let s1 := set_childStatus (os_wait o slot) s in
        let (s2, evs) := MyExit_loop o rest s1 in
        (s2, ev_kill slot SIGTERM :: ev_waitpid slot 0%Z :: evs)
      else MyExit_loop o rest s
  end.

Definition MyExit (o : os) (command : cmdStruct) (s : shell) : list event * proc :=
  let (_, evs) := MyExit_loop o (childPids s) s in
  (evs ++ [ev_exit EXIT_SUCCESS], Exited EXIT_SUCCESS).

Definition MyStatus (s : shell) : list event * proc :=
  ([ev_stdout ("exit status " ++ CLib.fmt_d (childStatus s) ++ CLib.nl)], Running s).

(** ** ReapZombies *)

Fixpoint ReapZombies_loop (zombies : list (Z * Z)) (s : shell) : shell * list event :=
  match zombies with
  | [] => (s, [ev_waitpid (-1)%Z Wait.WNOHANG])
  | (pid, status) :: rest =>
      if (0 <? pid)%Z then
        let s1 := set_childStatus status s in
        let report :=
          if Wait.WIFSIGNALED (childStatus s1) then
            ev_stdout ("terminated by signal "
                       ++ CLib.fmt_d (Wait.WTERMSIG (childStatus s1)) ++ CLib.nl)
          else
            ev_stdout ("exit value " ++ CLib.fmt_d (childStatus s1) ++ CLib.nl) in
        let s2 := RemoveChildPid pid s1 in
        let (s3, evs) := ReapZombies_loop rest s2 in
        (s3, ev_waitpid (-1)%Z Wait.WNOHANG
             :: ev_stdout ("background pid " ++ CLib.fmt_d pid ++ " is done: ")
             :: report :: evs)
      else (s, [ev_waitpid (-1)%Z Wait.WNOHANG])
  end.

Definition ReapZombies (o : os) (s : shell) : shell * list event :=
  let (s1, evs) := ReapZombies_loop (os_zombies o) s in
  (set_childTerminated false s1, evs).

(** ** RunCommand *)

Inductive dispatch : Type :=
  | BlankLine | CommentLine | BuiltinCd | BuiltinExit | BuiltinStatus | External.

(** The chain of tests of [RunCommand] on [args[ 0 ]]. *)
Definition RunCommand_dispatch (command : cmdStruct) : dispatch :=
  match args command with
  | [] => BlankLine
  | arg0 :: _ =>
      if (CLib.strncmp arg0 COMMENT COMMENT_LEN =? 0)%Z then CommentLine
      else if (CLib.strncmp arg0 CD_CMD CD_LEN =? 0)%Z then BuiltinCd
      else if (CLib.strncmp arg0 EXIT_CMD EXIT_LEN =? 0)%Z then BuiltinExit
      else if (CLib.strncmp arg0 STATUS_CMD STATUS_LEN =? 0)%Z then BuiltinStatus
      else External
  end.

Definition RunCommand (o : os) (command : cmdStruct) (s : shell) : list event * proc :=
  match RunCommand_dispatch command with
  | BlankLine => ([], Running s)
  | CommentLine => ([], Running s)
  | BuiltinCd => MyChangeDir o command s
  | BuiltinExit => MyExit o command s
  | BuiltinStatus => MyStatus s
  | External => ExternalCommand o command s
  end.

(** ** GetInput and the loop of main *)

Definition GetInput (o : os) (n : nat) (s : shell) : shell * list event * string :=
  let buf := String.substring 0 (n - 1) (os_line o) in
  if backgroundIgnoreSet s then
    (set_backgroundIgnoreSet false s,
     [ev_stdout (CLib.nl ++ "Entering foreground-only mode (& is now ignored)" ++ CLib.nl);
      ev_stdout ": "], buf)
  else if backgroundUnignoreSet s then
    (set_backgroundUnignoreSet false s,
     [ev_stdout (CLib.nl ++ "Exiting foreground-only mode" ++ CLib.nl);
      ev_stdout ": "], buf)
  else (s, [ev_stdout ": "], buf).

(** What [ExpandPID] does when [calloc] returned NULL for [arg]. *)
Definition ExpandPID_no_memory (arg : string) : list event :=
  [ev_stderr ("Failed to allocate space for arg " ++ arg ++ CLib.nl);
   ev_exit EXIT_FAILURE].

(** One pass of the [for(;;)] of [main]; [None] when [ParseCommand] has no
    defined result.  [FreeArgs] releases the argument strings after
    [RunCommand]; the heap is not part of the state. *)
Definition main_pass (o : os) (s : shell) : option (list event * proc) :=
  let '(s1, ev1, buf) := GetInput o BUF_SIZE s in
  let (s2, ev2) := deliver_all (os_signals_at_prompt o) s1 in
  match ParseCommand (os_calloc o) s2 (os_getpid o) buf with
  | Done (_, newCmd) =>
      match RunCommand o newCmd s2 with
      | (ev3, Running s3) =>
          if childTerminated s3 then
            let (s4, ev4) := ReapZombies o s3 in
            Some (ev1 ++ ev2 ++ ev3 ++ ev4, Running s4)
          else Some (ev1 ++ ev2 ++ ev3, Running s3)
      | (ev3, p) => Some (ev1 ++ ev2 ++ ev3, p)
      end
  | NoMemory arg =>
      Some (ev1 ++ ev2 ++ ExpandPID_no_memory arg, Exited EXIT_FAILURE)
  | Undefined => None
  end.

(** The shell run on a sequence of passes, as long as the process lives. *)
Fixpoint main_loop (passes : list os) (s : shell) : option (list event * proc) :=
  match passes with
  | [] => Some ([], Running s)
  | o :: rest =>
      match main_pass o s with
      | Some (ev1, Running s1) =>
          match main_loop rest s1 with
          | Some (ev2, p) => Some (ev1 ++ ev2, p)
          | None => None
          end
      | other => other
      end
  end.

Definition main (passes : list os) : option (list event * proc) :=
  match main_loop passes initial_shell with
  | Some (evs, p) => Some (SetSignalHandlers ++ evs, p)
  | None => None
  end.

(** ** Reading the parser against the token list *)

(** All the tokens successive [strtok] calls return on [buf].  Every call
    consumes at least one character, so [String.length buf] calls reach the
    end. *)
Fixpoint tokens_upto (calls : nat) (buf : string) : list string :=
  match calls with
  | O => []
  | S calls' =>
      match strtok buf blank_newline with
      | None => []
      | Some (tok, buf') => tok :: tokens_upto calls' buf'
      end
  end.

Definition tokens (buf : string) : list string :=
  tokens_upto (String.length buf) buf.

(** The tokens [ParseCommand] reads: at most [MAX_ARGS] of them. *)
Definition consumed_tokens (buf : string) : list string :=
  firstn MAX_ARGS (tokens buf).

(** What the calls of [ExpandPID] in the loop of [ParseCommand] make of the
    tokens [toks], the first of them read in pass [i]: the strings they
    return, or how the first call that does not return goes. *)
Fixpoint expand_all (calloc_ok : nat -> bool) (i : nat) (pid : Z)
    (toks : list string) : outcome (list string) :=
  match toks with
  | [] => Done []
  | tok :: rest =>
      if calloc_ok i then
        match ExpandPID pid tok with
        | Some expanded =>
            match expand_all calloc_ok (S i) pid rest with
            | Done others => Done (expanded :: others)
            | NoMemory arg => NoMemory arg
            | Undefined => Undefined
            end
        | None => Undefined
        end
      else NoMemory tok
  end.

(** The struct [ParseCommand] leaves when the calls of [ExpandPID] have
    returned the strings [expanded], in this order: the loop body on each
    of them, then the check of the last argument.  For which tokens
    [ExpandPID] returns a string is studied on [ExpandPID] itself; what is
    stated of [ParseCommand_stored] holds of the loop body and the check
    whatever strings they are given. *)
Definition ParseCommand_stored (ignoreBackground : bool) (expanded : list string)
    : cmdStruct :=
  ParseCommand_background ignoreBackground
    (cmd (fold_left ParseCommand_store expanded parse_start)).

Definition is_operator (tok : string) : bool :=
  (tok =? INPUT)%string || (tok =? OUTPUT)%string.

(** The argument tokens of a line: its tokens without the redirection
    operators and without the token that follows an operator (the path). *)
Fixpoint argument_tokens (toks : list string) : list string :=
  match toks with
  | [] => []
  | tok :: rest =>
      if is_operator tok then
        match rest with
        | [] => []
        | _ :: rest' => argument_tokens rest'
        end
      else tok :: argument_tokens rest
  end.

(** Whether a line ends in a redirection operator that waits for its
    path: an operator that is not itself the path of the operator before
    it, with nothing after it. *)
Fixpoint awaits_path (toks : list string) : bool :=
  match toks with
  | [] => false
  | tok :: rest =>
      if is_operator tok then
        match rest with
        | [] => true
        | _ :: rest' => awaits_path rest'
        end
      else awaits_path rest
  end.

(** The paths a line gives to the operator [op]: the tokens that follow it
    where it stands as an operator. *)
Fixpoint paths_given (op : string) (toks : list string) : list string :=
  match toks with
  | [] => []
  | tok :: rest =>
      if is_operator tok then
        match rest with
        | [] => []
        | path :: rest' =>
            if (tok =? op)%string then path :: paths_given op rest'
            else paths_given op rest'
        end
      else paths_given op rest
  end.

(** The last of the paths, or what the field held before. *)
Definition last_path (paths : list string) (before : option string)
    : option string :=
  match rev paths with
  | path :: _ => Some path
  | [] => before
  end.

(** The shell after [n] deliveries of SIGTSTP. *)
Fixpoint after_SIGTSTP (n : nat) (s : shell) : shell :=
  match n with
  | O => s
  | S n' => fst (HandleSIGTSTP (after_SIGTSTP n' s))
  end.

(** The children [ReapZombies] reaps: those the [waitpid] calls return
    before the first call that returns no pid. *)
Fixpoint reaped (zombies : list (Z * Z)) : list (Z * Z) :=
  match zombies with
  | [] => []
  | (pid, status) :: rest =>
      if (0 <? pid)%Z then (pid, status) :: reaped rest else []
  end.

(** The flags [OPEN_FILE_WRITE] opens with. *)
Definition write_flags : Z := Z.lor (Z.lor O_WRONLY O_CREAT) O_TRUNC.

(** The state and the command of a pass of [main] when [RunCommand] is
    called. *)
Definition pass_shell (o : os) (s : shell) : shell :=
  fst (deliver_all (os_signals_at_prompt o) (fst (fst (GetInput o BUF_SIZE s)))).

Definition pass_command (o : os) (s : shell) : outcome (Z * cmdStruct) :=
  ParseCommand (os_calloc o) (pass_shell o s) (os_getpid o)
               (snd (GetInput o BUF_SIZE s)).

(** A world in which nothing fails: every file opens, every program is
    found, the child of a fork is process 4321 and ends with [exit( 0 )]. *)
Definition calm_os (text : string) : os :=
  {| os_getpid := 1234%Z;
     os_line := (text ++ CLib.nl)%string;
     os_signals_at_prompt := [];
     os_fork := 4321%Z;
     os_signals_at_wait := [];
     os_wait := fun _ => Wait.exited_with 0;
     os_zombies := [];
     os_open := fun _ _ => None;
     os_execvp := fun _ => true;
     os_chdir := fun _ => true;
     os_getenv := fun _ => Some "/root";
     os_calloc := fun _ => true |}.

Definition with_wait (wait : Z -> Z) (o : os) : os :=
  mkOs (os_getpid o) (os_line o) (os_signals_at_prompt o) (os_fork o)
       (os_signals_at_wait o) wait (os_zombies o) (os_open o) (os_execvp o)
       (os_chdir o) (os_getenv o) (os_calloc o).

Definition with_zombies (zombies : list (Z * Z)) (o : os) : os :=
  mkOs (os_getpid o) (os_line o) (os_signals_at_prompt o) (os_fork o)
       (os_signals_at_wait o) (os_wait o) zombies (os_open o) (os_execvp o)
       (os_chdir o) (os_getenv o) (os_calloc o).

Definition with_signals_at_prompt (sigs : list signal) (o : os) : os :=
  mkOs (os_getpid o) (os_line o) sigs (os_fork o)
       (os_signals_at_wait o) (os_wait o) (os_zombies o) (os_open o) (os_execvp o)
       (os_chdir o) (os_getenv o) (os_calloc o).

Definition with_fork (ret : Z) (o : os) : os :=
  mkOs (os_getpid o) (os_line o) (os_signals_at_prompt o) ret
       (os_signals_at_wait o) (os_wait o) (os_zombies o) (os_open o) (os_execvp o)
       (os_chdir o) (os_getenv o) (os_calloc o).

(** A line as [fgets] stores it: the text and the newline that ended it. *)
Definition line (text : string) : string := (text ++ CLib.nl)%string.

(** ** Notions the properties are stated with *)

(** At most one of the two lookahead flags of [ParseCommand] is set; some
    path is awaited. *)
Definition flags_exclusive (st : parse_state) : Prop :=
  inputFlag st = false \/ outputFlag st = false.

Definition path_pending (st : parse_state) : bool :=
  inputFlag st || outputFlag st.

(** A redirection flag of the struct is set only with its path stored or
    awaited, and at most one path is awaited. *)
Definition flag_has_path (st : parse_state) : Prop :=
  (isRedirectInput (cmd st) = true ->
   inputFlag st = true \/ input (cmd st) <> None)
  /\ (isRedirectOutput (cmd st) = true ->
      outputFlag st = true \/ output (cmd st) <> None)
  /\ flags_exclusive st.

(** A first argument that [RunCommand] takes for a comment. *)
Definition starts_with_comment (arg0 : string) : Prop :=
  exists tail : string, arg0 = String "#" tail.

(** The pids in the job table, and what [MyExit] does for one of them. *)
Definition registered (slots : list Z) : list Z :=
  filter (fun slot => negb (slot =? 0)%Z) slots.

Definition terminate_and_wait (pid : Z) : list event :=
  [ev_kill pid SIGTERM; ev_waitpid pid 0%Z].

(** The path a direction of a background command is opened on. *)
Definition background_path (redirected : bool) (path : option string) : option string :=
  if redirected then path else Some DEV_NULL.

(** Whether the token holds the variable [PID_VAR] somewhere. *)
Fixpoint has_PID_VAR (arg : string) : bool :=
  match arg with
  | EmptyString => false
  | String c rest =>
      match rest with
      | String c' _ => ((c =? "$")%char && (c' =? "$")%char) || has_PID_VAR rest
      | EmptyString => false
      end
  end.

(** Characters with no NUL among them. *)
Definition nul_free (l : list ascii) : Prop := Forall (fun c => c <> CLib.NUL) l.

(** What the loop of [ExpandPID] does on a block that holds [w] and then
    [k] zero bytes, with [newArgIdx] at the end of [w]: with room for the
    text and a terminator it leaves the text after [w]; without, a store
    leaves the block or the block ends up with no NUL. *)
Definition loop_fits (pidStr arg : string) : Prop :=
  forall (w : list ascii) (k : nat),
    nul_free w -> nul_free (list_ascii_of_string arg) ->
    let text := list_ascii_of_string (ExpandPID_text pidStr arg) in
    (List.length text + 1 <= k)%nat ->
    ExpandPID_loop pidStr (String.length pidStr) arg (w ++ repeat CLib.NUL k)
                   (List.length w)
    = Some ((w ++ text) ++ repeat CLib.NUL (k - List.length text)).

Definition loop_overflows (pidStr arg : string) : Prop :=
  forall (w : list ascii) (k : nat),
    nul_free w -> nul_free (list_ascii_of_string arg) ->
    let text := list_ascii_of_string (ExpandPID_text pidStr arg) in
    (k < List.length text + 1)%nat ->
    match ExpandPID_loop pidStr (String.length pidStr) arg (w ++ repeat CLib.NUL k)
                         (List.length w) with
    | Some block => CLib.find_nul block = None
    | None => True
    end.

(** ** Notions the further properties are stated with *)

(** A word as [strtok] returns them: not empty, and with neither a blank
    nor a newline in it. *)
Definition is_word (w : string) : Prop :=
  w <> EmptyString
  /\ Forall (fun c => is_delim blank_newline c = false) (list_ascii_of_string w).

(** A buffer of blanks and newlines only. *)
Definition only_delims (buf : string) : Prop :=
  Forall (fun c => is_delim blank_newline c = true) (list_ascii_of_string buf).

(** The argument tokens without the background operator at their end, if
    there is one. *)
Definition without_background (toks : list string) : list string :=
  match rev toks with
  | tok :: _ => if (tok =? BACKGROUND)%string then removelast toks else toks
  | [] => toks
  end.

(** What holds of the struct all through the loop of [ParseCommand]: a path
    is stored, or awaited, only with the flag of its direction set, and no
    stored argument is a redirection operator. *)
Definition redirection_consistent (st : parse_state) : Prop :=
  (inputFlag st = true -> isRedirectInput (cmd st) = true)
  /\ (outputFlag st = true -> isRedirectOutput (cmd st) = true)
  /\ (input (cmd st) <> None -> isRedirectInput (cmd st) = true)
  /\ (output (cmd st) <> None -> isRedirectOutput (cmd st) = true)
  /\ Forall (fun a => a <> INPUT /\ a <> OUTPUT) (args (cmd st)).

(** How often a pid stands in the job table. *)
Definition occurrences (pid : Z) (slots : list Z) : nat :=
  count_occ Z.eq_dec slots pid.

(** A step of a child that, if it ends the process, ends it by [exit] or
    by a new program image, never as the running shell. *)
Definition leaves_shell {A : Type} (m : child_m A) : Prop :=
  forall st : child_state,
    match m st with
    | Go _ _ => True
    | Halt (Running _) _ => False
    | Halt _ _ => True
    end.

(** The reports of [ReapZombies] in a trace. *)
Definition is_done_report (ev : event) : bool :=
  match ev with
  | ev_stdout text => String.prefix "background pid " text
  | _ => false
  end.

(** What a standard descriptor of a foreground child refers to when its
    program starts: the file named for the direction, or what the shell has
    there. *)
Definition foreground_file (redirected : bool) (path : option string) (flags : Z)
    : option file :=
  if redirected then option_map (fun p => OpenFile p flags) path
  else Some Terminal.

Definition entering_notice : string :=
  (CLib.nl ++ "Entering foreground-only mode (& is now ignored)" ++ CLib.nl)%string.
Definition exiting_notice : string :=
  (CLib.nl ++ "Exiting foreground-only mode" ++ CLib.nl)%string.

(** * Properties *)


(** ** strncmp *)

(** When the bound reaches past the terminator of the second string, the
    comparison is equality of the two strings. *)
Lemma strncmp_exact (t : string) :
  forall (s : string) (n : nat),
    (String.length t < n)%nat ->
    (CLib.strncmp s t n = 0%Z <-> s = t).
Proof.
  induction t as [|a t IH]; intros s n Hn.
  - destruct n as [|n]; [simpl in Hn; lia|].
    destruct s; simpl; split; intro H; try reflexivity; discriminate.
  - destruct n as [|n]; [simpl in Hn; lia|].
    destruct s as [|c s]; simpl.
    + split; intro H; discriminate.
    + destruct (Ascii.eqb_spec c a) as [->|Hne].
      * rewrite (IH s n) by (simpl in Hn; lia).
        split; intro H; [now subst|now inversion H].
      * split; intro H.
        -- destruct (nat_of_ascii c <? nat_of_ascii a)%nat; discriminate.
        -- inversion H; contradiction.
Qed.

(** With bound 1 only the first characters are compared. *)
Lemma strncmp_first (c : ascii) (s : string) :
  CLib.strncmp s (String c EmptyString) 1 = 0%Z <-> exists tail, s = String c tail.
Proof.
  destruct s as [|a s]; simpl.
  - split; [discriminate|intros [tail H]; discriminate].
  - destruct (Ascii.eqb_spec a c) as [->|Hne].
    + simpl. split; [intros _; now exists s|reflexivity].
    + split.
      * destruct (nat_of_ascii a <? nat_of_ascii c)%nat; discriminate.
      * intros [tail H]; inversion H; contradiction.
Qed.

(** ** The loop of ParseCommand on the strings ExpandPID returns *)

Lemma skip_delims_length (delim s : string) :
  (String.length (skip_delims delim s) <= String.length s)%nat.
Proof.
  induction s as [|c s IH]; simpl; [lia|].
  destruct (is_delim delim c); simpl; lia.
Qed.

Lemma take_token_length (delim s : string) :
  (String.length (snd (take_token delim s)) <= String.length s)%nat.
Proof.
  induction s as [|c s IH]; simpl; [lia|].
  destruct (is_delim delim c); simpl; [lia|].
  destruct (take_token delim s) as [tok rest]; simpl in *; lia.
Qed.

Lemma strtok_shorter (delim s tok rest : string) :
  strtok s delim = Some (tok, rest) ->
  (String.length rest < String.length s)%nat.
Proof.
  unfold strtok. intros H.
  pose proof (skip_delims_length delim s) as Hs.
  destruct (skip_delims delim s) as [|c s'] eqn:E; [discriminate|].
  inversion H as [H1]. clear H.
  simpl in H1. destruct (is_delim delim c).
  - inversion H1; subst. simpl in Hs. lia.
  - pose proof (take_token_length delim s') as Ht.
    destruct (take_token delim s') as [t r]. inversion H1; subst.
    simpl in *. lia.
Qed.

Lemma tokens_upto_enough (n : nat) :
  forall (m : nat) (buf : string),
    (String.length buf <= n)%nat -> (String.length buf <= m)%nat ->
    tokens_upto n buf = tokens_upto m buf.
Proof.
  induction n as [|n IH]; intros m buf Hn Hm.
  - destruct buf; [|simpl in Hn; lia]. destruct m; reflexivity.
  - destruct m as [|m].
    + destruct buf; [reflexivity|simpl in Hm; lia].
    + simpl. destruct (strtok buf blank_newline) as [[tok rest]|] eqn:E; [|reflexivity].
      apply strtok_shorter in E. f_equal. apply IH; lia.
Qed.

Lemma tokens_step (buf : string) :
  tokens buf =
  match strtok buf blank_newline with
  | None => []
  | Some (tok, rest) => tok :: tokens rest
  end.
Proof.
  unfold tokens. destruct buf as [|c buf]; [reflexivity|].
  cbn [String.length tokens_upto].
  destruct (strtok (String c buf) blank_newline) as [[tok rest]|] eqn:E; [|reflexivity].
  apply strtok_shorter in E. simpl in E. f_equal.
  apply tokens_upto_enough; lia.
Qed.

(** The loop calls ExpandPID on the tokens in their order and stops at the
    first call that fails; when all return, it has stored what they
    returned. *)
Lemma ParseCommand_loop_expand (left : nat) (calloc_ok : nat -> bool) (pid : Z) :
  forall (i : nat) (buf : string) (st : parse_state),
    ParseCommand_loop left calloc_ok i pid buf st =
    match expand_all calloc_ok i pid (firstn left (tokens buf)) with
    | Done expanded => Done (fold_left ParseCommand_store expanded st)
    | NoMemory arg => NoMemory arg
    | Undefined => Undefined
    end.
Proof.
  induction left as [|left IH]; intros i buf st; [reflexivity|].
  rewrite tokens_step. cbn [ParseCommand_loop].
  destruct (strtok buf blank_newline) as [[tok rest]|]; [|reflexivity].
  cbn [firstn expand_all].
  destruct (calloc_ok i); [|reflexivity].
  destruct (ExpandPID pid tok) as [e|]; [|reflexivity].
  rewrite IH.
  destruct (expand_all calloc_ok (S i) pid (firstn left (tokens rest)));
    reflexivity.
Qed.

Lemma ParseCommand_expand (calloc_ok : nat -> bool) (s : shell) (pid : Z)
    (buf : string) :
  ParseCommand calloc_ok s pid buf =
  match expand_all calloc_ok 0 pid (consumed_tokens buf) with
  | Done expanded =>
      Done (EXIT_SUCCESS, ParseCommand_stored (ignoreBackground s) expanded)
  | NoMemory arg => NoMemory arg
  | Undefined => Undefined
  end.
Proof.
  unfold ParseCommand, consumed_tokens. rewrite ParseCommand_loop_expand.
  destruct (expand_all calloc_ok 0 pid (firstn MAX_ARGS (tokens buf)));
    reflexivity.
Qed.

Lemma expand_all_no_memory (calloc_ok : nat -> bool) (pid : Z)
    (toks : list string) :
  forall (i : nat) (arg : string),
    expand_all calloc_ok i pid toks = NoMemory arg ->
    exists j : nat, calloc_ok j = false.
Proof.
  induction toks as [|tok toks IH]; intros i arg H; [discriminate|].
  cbn [expand_all] in H.
  destruct (calloc_ok i) eqn:E; [|now exists i].
  destruct (ExpandPID pid tok); [|discriminate].
  destruct (expand_all calloc_ok (S i) pid toks) eqn:E'; try discriminate.
  now apply (IH (S i) arg0).
Qed.

(** What ExpandPID returned for the tokens: one string for each, that of
    the call on it. *)
Lemma expand_all_done (calloc_ok : nat -> bool) (pid : Z) (toks : list string) :
  forall (i : nat) (expanded : list string),
    expand_all calloc_ok i pid toks = Done expanded ->
    Forall2 (fun tok text => ExpandPID pid tok = Some text) toks expanded.
Proof.
  induction toks as [|tok toks IH]; intros i expanded H.
  - inversion H. constructor.
  - cbn [expand_all] in H.
    destruct (calloc_ok i); [|discriminate].
    destruct (ExpandPID pid tok) as [text|] eqn:E; [|discriminate].
    destruct (expand_all calloc_ok (S i) pid toks) as [others| |] eqn:E';
      try discriminate.
    inversion H; subst. constructor; [assumption|]. now apply (IH (S i)).
Qed.

(** C8: ParseCommand reads at most MAX_ARGS (512) tokens of the line: what
    it does is fixed by the first MAX_ARGS tokens alone - ExpandPID is
    called on them in their order and the command is built from what it
    returned - so two lines that agree on them parse alike and whatever
    follows is dropped; whenever it returns, it returns EXIT_SUCCESS, with
    no error path for a long line: the one message a run of ParseCommand
    can cause is that of ExpandPID when calloc returns NULL. *)
Theorem ParseCommand_reads_at_most_MAX_ARGS (calloc_ok : nat -> bool) (s : shell)
    (pid : Z) (buf : string) :
  (List.length (consumed_tokens buf) <= MAX_ARGS)%nat
  /\ ParseCommand calloc_ok s pid buf =
     match expand_all calloc_ok 0 pid (consumed_tokens buf) with
     | Done expanded =>
         Done (EXIT_SUCCESS, ParseCommand_stored (ignoreBackground s) expanded)
     | NoMemory arg => NoMemory arg
     | Undefined => Undefined
     end
  /\ (forall buf' : string,
        consumed_tokens buf' = consumed_tokens buf ->
        ParseCommand calloc_ok s pid buf' = ParseCommand calloc_ok s pid buf)
  /\ (forall r : Z * cmdStruct,
        ParseCommand calloc_ok s pid buf = Done r -> fst r = EXIT_SUCCESS)
  /\ (forall arg : string,
        ParseCommand calloc_ok s pid buf = NoMemory arg ->
        exists j : nat, calloc_ok j = false).
Proof.
  split; [|split; [|split; [|split]]].
  - unfold consumed_tokens. rewrite length_firstn. apply Nat.le_min_l.
  - apply ParseCommand_expand.
  - intros buf' H. now rewrite !ParseCommand_expand, H.
  - intros r. rewrite ParseCommand_expand.
    destruct (expand_all calloc_ok 0 pid (consumed_tokens buf)); try discriminate.
    intros H. inversion H. reflexivity.
  - intros arg. rewrite ParseCommand_expand.
    destruct (expand_all calloc_ok 0 pid (consumed_tokens buf)) eqn:E;
      try discriminate.
    intros H. inversion H; subst. now apply (expand_all_no_memory _ _ _ _ _ E).
Qed.

(** ** Which of the strings become arguments *)

Lemma strncmp_operator (a op : string) (c : ascii) :
  op = String c EmptyString ->
  (CLib.strncmp a op 2 =? 0)%Z = (a =? op)%string.
Proof.
  intros ->.
  destruct (String.eqb_spec a (String c EmptyString)) as [->|Hne].
  - apply Z.eqb_eq. apply strncmp_exact; [simpl; lia|reflexivity].
  - apply Z.eqb_neq. intros H. apply strncmp_exact in H; [|simpl; lia].
    contradiction.
Qed.

Lemma ParseCommand_store_INPUT (c : cmdStruct) :
  ParseCommand_store (mkParse c false false) INPUT =
  mkParse (mkCmd (args c) (input c) (output c) true (isRedirectOutput c)
                 (isBackground c)) true false.
Proof. reflexivity. Qed.

Lemma ParseCommand_store_OUTPUT (c : cmdStruct) :
  ParseCommand_store (mkParse c false false) OUTPUT =
  mkParse (mkCmd (args c) (input c) (output c) (isRedirectInput c) true
                 (isBackground c)) false true.
Proof. reflexivity. Qed.

Lemma ParseCommand_store_input_path (c : cmdStruct) (fo : bool) (a : string) :
  ParseCommand_store (mkParse c true fo) a =
  mkParse (mkCmd (args c) (Some a) (output c)
                 (isRedirectInput c) (isRedirectOutput c) (isBackground c))
          false fo.
Proof. reflexivity. Qed.

Lemma ParseCommand_store_output_path (c : cmdStruct) (a : string) :
  ParseCommand_store (mkParse c false true) a =
  mkParse (mkCmd (args c) (input c) (Some a)
                 (isRedirectInput c) (isRedirectOutput c) (isBackground c))
          false false.
Proof. reflexivity. Qed.

Lemma ParseCommand_store_plain (c : cmdStruct) (a : string) :
  is_operator a = false ->
  ParseCommand_store (mkParse c false false) a =
  mkParse (mkCmd (args c ++ [a]) (input c) (output c)
                 (isRedirectInput c) (isRedirectOutput c) (isBackground c))
          false false.
Proof.
  unfold is_operator. intros H. apply orb_false_elim in H as [Hi Ho].
  unfold ParseCommand_store. cbn [inputFlag outputFlag cmd].
  rewrite (strncmp_operator a INPUT "<"%char) by reflexivity.
  rewrite (strncmp_operator a OUTPUT ">"%char) by reflexivity.
  now rewrite Hi, Ho.
Qed.

Lemma is_operator_cases (a : string) :
  is_operator a = true -> a = INPUT \/ a = OUTPUT.
Proof.
  unfold is_operator. intros H. apply orb_true_iff in H as [H|H];
    apply String.eqb_eq in H; auto.
Qed.

Lemma ParseCommand_loop_args (toks : list string) :
  forall st : parse_state,
    flags_exclusive st ->
    args (cmd (fold_left ParseCommand_store toks st)) =
    args (cmd st)
    ++ argument_tokens (if path_pending st then tl toks else toks).
Proof.
  induction toks as [|tok rest IH]; intros st Hex.
  - simpl. destruct (path_pending st); simpl; now rewrite app_nil_r.
  - cbn [fold_left]. unfold ParseCommand_store at 2, path_pending.
    destruct (inputFlag st) eqn:Ei.
    { destruct Hex as [Hx|Hx]; [congruence|].
      rewrite IH by (left; reflexivity).
      unfold path_pending; simpl. now rewrite Hx. }
    destruct (outputFlag st) eqn:Eo.
    { rewrite IH by (left; reflexivity). reflexivity. }
    cbn [orb tl argument_tokens]. unfold is_operator.
    rewrite (strncmp_operator tok INPUT "<"%char) by reflexivity.
    rewrite (strncmp_operator tok OUTPUT ">"%char) by reflexivity.
    destruct (tok =? INPUT)%string.
    { rewrite IH by (right; reflexivity).
      unfold path_pending; simpl. destruct rest; reflexivity. }
    destruct (tok =? OUTPUT)%string.
    { rewrite IH by (left; reflexivity).
      unfold path_pending; simpl. destruct rest; reflexivity. }
    rewrite IH by (left; reflexivity).
    unfold path_pending; simpl. now rewrite <- app_assoc.
Qed.

Lemma ParseCommand_loop_isBackground (toks : list string) :
  forall st : parse_state,
    isBackground (cmd (fold_left ParseCommand_store toks st)) =
    isBackground (cmd st).
Proof.
  induction toks as [|tok rest IH]; intros st; [reflexivity|].
  cbn [fold_left]. rewrite IH. unfold ParseCommand_store.
  repeat match goal with |- context [if ?b then _ else _] => destruct b end;
    reflexivity.
Qed.

Lemma ParseCommand_background_flag (ig : bool) (c : cmdStruct) :
  isBackground c = false ->
  (isBackground (ParseCommand_background ig c) = true
   <-> hd_error (rev (args c)) = Some BACKGROUND /\ ig = false).
Proof.
  intros Hc. unfold ParseCommand_background.
  destruct (rev (args c)) as [|lastArg others]; cbn [hd_error].
  - rewrite Hc. split; [discriminate|intros [H _]; discriminate].
  - destruct (CLib.strncmp lastArg BACKGROUND 2 =? 0)%Z eqn:E.
    + apply Z.eqb_eq in E. apply strncmp_exact in E; [|simpl; lia]. subst.
      cbn [isBackground]. destruct ig; split; try discriminate; auto.
      intros [_ H]; discriminate.
    + apply Z.eqb_neq in E. rewrite Hc.
      split; [discriminate|]. intros [H _]. inversion H; subst.
      exfalso. apply E. apply strncmp_exact; [simpl; lia|reflexivity].
Qed.

(** The test after the loop is on the last stored argument: the struct is
    a background command exactly when the last of the strings that are
    neither a redirection operator nor the string after one is the
    background operator, and foreground-only mode is off. *)
Lemma ParseCommand_background_last_argument (ig : bool) (expanded : list string) :
  isBackground (ParseCommand_stored ig expanded) = true
  <-> hd_error (rev (argument_tokens expanded)) = Some BACKGROUND /\ ig = false.
Proof.
  unfold ParseCommand_stored.
  rewrite ParseCommand_background_flag
    by (now rewrite ParseCommand_loop_isBackground).
  rewrite ParseCommand_loop_args by (left; reflexivity).
  reflexivity.
Qed.

(** C3 (the code against the claim and against its own comment at the
    test): the line "cat & < file" has the four tokens cat, &, <, file, the
    last of them the path.  With these four as the arguments of the loop
    body, < and file go to the redirection fields, & is the last stored
    argument, and the test on args[ argCount - 1 ] makes the command a
    background command although & is not the last token of the line. *)
Lemma ParseCommand_background_before_redirection :
  tokens (line "cat & < file") = ["cat"; "&"; "<"; "file"]
  /\ hd_error (rev (tokens (line "cat & < file"))) = Some "file"
  /\ cmd (fold_left ParseCommand_store ["cat"; "&"; "<"; "file"] parse_start)
     = mkCmd ["cat"; "&"] (Some "file") None true false false
  /\ ParseCommand_stored false ["cat"; "&"; "<"; "file"]
     = mkCmd ["cat"] (Some "file") None true false true.
Proof. repeat split; vm_compute; reflexivity. Qed.

(** ** The redirections of a line *)

Lemma list_pair_ind {A : Type} (P : list A -> Prop) :
  P [] -> (forall a, P [a]) ->
  (forall a b l, P l -> P (b :: l) -> P (a :: b :: l)) ->
  forall l, P l.
Proof.
  intros H0 H1 H2 l.
  assert (H : P l /\ forall a, P (a :: l)).
  { induction l as [|b l [IHl IHbl]]; [split; [exact H0|exact H1]|].
    split; [apply IHbl|]. intros a. apply H2; [exact IHl|apply IHbl]. }
  apply H.
Qed.

Lemma last_path_cons (p : string) (paths : list string) (before : option string) :
  last_path (p :: paths) before = last_path paths (Some p).
Proof.
  unfold last_path. cbn [rev]. destruct (rev paths); reflexivity.
Qed.

Lemma last_path_none (paths : list string) :
  last_path paths None = None <-> paths = [].
Proof.
  unfold last_path. split.
  - destruct paths as [|p paths]; [reflexivity|].
    cbn [rev]. destruct (rev paths); discriminate.
  - intros ->. reflexivity.
Qed.

(** The lookahead of the loop against the line: after the strings [toks],
    read from a state that awaits no path, the loop awaits a path exactly
    when [toks] ends in an operator in operator position, and each path
    field holds the last path given to its operator. *)
Lemma ParseCommand_loop_redirections (toks : list string) :
  forall c : cmdStruct,
    let st := fold_left ParseCommand_store toks (mkParse c false false) in
    path_pending st = awaits_path toks
    /\ input (cmd st) = last_path (paths_given INPUT toks) (input c)
    /\ output (cmd st) = last_path (paths_given OUTPUT toks) (output c).
Proof.
  induction toks as [|a|a b l IHl IHbl] using list_pair_ind; intros c st.
  - repeat split.
  - subst st. cbn [fold_left]. destruct (is_operator a) eqn:Eop.
    + destruct (is_operator_cases a Eop) as [-> | ->]; repeat split.
    + rewrite ParseCommand_store_plain by assumption.
      cbn [awaits_path paths_given]. rewrite Eop. repeat split.
  - subst st. destruct (is_operator a) eqn:Eop.
    + destruct (is_operator_cases a Eop) as [-> | ->].
      * cbn [fold_left].
        rewrite ParseCommand_store_INPUT, ParseCommand_store_input_path.
        change (awaits_path (INPUT :: b :: l)) with (awaits_path l).
        change (paths_given INPUT (INPUT :: b :: l))
          with (b :: paths_given INPUT l).
        change (paths_given OUTPUT (INPUT :: b :: l))
          with (paths_given OUTPUT l).
        rewrite last_path_cons. exact (IHl _).
      * cbn [fold_left].
        rewrite ParseCommand_store_OUTPUT, ParseCommand_store_output_path.
        change (awaits_path (OUTPUT :: b :: l)) with (awaits_path l).
        change (paths_given INPUT (OUTPUT :: b :: l))
          with (paths_given INPUT l).
        change (paths_given OUTPUT (OUTPUT :: b :: l))
          with (b :: paths_given OUTPUT l).
        rewrite last_path_cons. exact (IHl _).
    + cbn [fold_left]. rewrite ParseCommand_store_plain by assumption.
      cbn [awaits_path paths_given]. rewrite Eop.
      apply (IHbl (mkCmd (args c ++ [a]) (input c) (output c)
                         (isRedirectInput c) (isRedirectOutput c)
                         (isBackground c))).
Qed.

Lemma ParseCommand_store_flag_has_path (st : parse_state) (a : string) :
  flag_has_path st -> flag_has_path (ParseCommand_store st a).
Proof.
  intros (Hi & Ho & Hex). unfold ParseCommand_store, flag_has_path, flags_exclusive.
  destruct (inputFlag st) eqn:Ei.
  { destruct Hex as [Hex|Hex]; [congruence|]. rewrite Hex.
    cbn. split; [intros _; right; discriminate|]. split; [|auto].
    intros H. destruct (Ho H) as [E|E]; [congruence|auto]. }
  destruct (outputFlag st) eqn:Eo.
  { cbn. split; [|split; [intros _; right; discriminate|auto]].
    intros H. destruct (Hi H) as [E|E]; [discriminate|auto]. }
  destruct (CLib.strncmp a INPUT 2 =? 0)%Z.
  { cbn. split; [auto|]. split; [|auto].
    intros H. destruct (Ho H) as [E|E]; [congruence|auto]. }
  destruct (CLib.strncmp a OUTPUT 2 =? 0)%Z.
  { cbn. split; [|auto]. intros H. destruct (Hi H) as [E|E]; [congruence|auto]. }
  cbn. split; [|split; [|auto]]; intros H.
  - destruct (Hi H) as [E|E]; [congruence|auto].
  - destruct (Ho H) as [E|E]; [congruence|auto].
Qed.

Lemma ParseCommand_loop_flag_has_path (toks : list string) :
  forall st : parse_state,
    flag_has_path st -> flag_has_path (fold_left ParseCommand_store toks st).
Proof.
  induction toks as [|a toks IH]; intros st H; [assumption|].
  cbn [fold_left]. apply IH. now apply ParseCommand_store_flag_has_path.
Qed.

Lemma ParseCommand_background_keeps_redirection (ig : bool) (c : cmdStruct) :
  input (ParseCommand_background ig c) = input c
  /\ output (ParseCommand_background ig c) = output c
  /\ isRedirectInput (ParseCommand_background ig c) = isRedirectInput c
  /\ isRedirectOutput (ParseCommand_background ig c) = isRedirectOutput c.
Proof.
  unfold ParseCommand_background.
  destruct (rev (args c)) as [|lastArg others]; [tauto|].
  destruct (CLib.strncmp lastArg BACKGROUND 2 =? 0)%Z; cbn; tauto.
Qed.

(** ** A redirection operator at the end of the line *)

(** The child of a command whose output flag is set with no path: the open
    of the NULL path is its first, it fails, and [err] ends the child. *)
Lemma child_opens_null_output (o : os) (c : cmdStruct) :
  isRedirectOutput c = true -> output c = None ->
  run_child (ExternalCommand_child o c) (mkChild shell_fds [])
  = ([ev_sigaction SIGCHLD SIG_DFL; ev_sigaction SIGTSTP SIG_IGN;
      ev_open None write_flags (-1)%Z;
      ev_err EFAULT (line "Failed to open file %s.") None;
      ev_exit EFAULT],
     Exited EFAULT).
Proof.
  destruct c as [a i ou ri ro bg]. cbn [isRedirectOutput output].
  intros -> ->. reflexivity.
Qed.

(** The child of a command whose input flag is set with no path: it opens
    the NULL path after the output path, if there is one and it opens. *)
Lemma child_opens_null_input (o : os) (c : cmdStruct) :
  isRedirectInput c = true -> input c = None ->
  (isRedirectOutput c = false ->
   run_child (ExternalCommand_child o c) (mkChild shell_fds [])
   = ([ev_sigaction SIGCHLD SIG_DFL; ev_sigaction SIGTSTP SIG_IGN;
       ev_open None O_RDONLY (-1)%Z;
       ev_err EFAULT (line "Failed to open file %s.") None;
       ev_exit EFAULT],
      Exited EFAULT))
  /\ (forall path : string,
        isRedirectOutput c = true -> output c = Some path ->
        os_open o path write_flags = None ->
        run_child (ExternalCommand_child o c) (mkChild shell_fds [])
        = ([ev_sigaction SIGCHLD SIG_DFL; ev_sigaction SIGTSTP SIG_IGN;
            ev_open (Some path) write_flags 3%Z; ev_dup2 3%Z STDOUT_FILENO;
            ev_open None O_RDONLY (-1)%Z;
            ev_err EFAULT (line "Failed to open file %s.") None;
            ev_exit EFAULT],
           Exited EFAULT))
  /\ (forall (path : string) (errno : Z),
        isRedirectOutput c = true -> output c = Some path ->
        os_open o path write_flags = Some errno ->
        run_child (ExternalCommand_child o c) (mkChild shell_fds [])
        = ([ev_sigaction SIGCHLD SIG_DFL; ev_sigaction SIGTSTP SIG_IGN;
            ev_open (Some path) write_flags (-1)%Z;
            ev_err errno (line "Failed to open file %s.") (Some path);
            ev_exit errno],
           Exited errno)).
Proof.
  destruct c as [a i ou ri ro bg].
  cbn [isRedirectInput isRedirectOutput input output].
  intros -> ->. split; [|split].
  - intros ->. reflexivity.
  - intros path -> -> Hopen.
    unfold run_child, ExternalCommand_child, OPEN_FILE_WRITE, OPEN_FILE_READ,
      UTL_OpenFile, c_bind, c_emit, c_exit, c_ret, sys_open, sys_dup2.
    cbn [isRedirectOutput isRedirectInput output input c_fds c_trace].
    change (Z.lor (Z.lor O_WRONLY O_CREAT) O_TRUNC) with write_flags.
    rewrite Hopen. reflexivity.
  - intros path errno -> -> Hopen.
    unfold run_child, ExternalCommand_child, OPEN_FILE_WRITE, UTL_OpenFile,
      c_bind, c_emit, c_exit, sys_open.
    cbn [isRedirectOutput output c_fds c_trace].
    change (Z.lor (Z.lor O_WRONLY O_CREAT) O_TRUNC) with write_flags.
    rewrite Hopen. reflexivity.
Qed.

(** C10 (amended): let the strings the loop of ParseCommand reads end in the
    operator < (respectively >).  The struct it leaves has isRedirectInput
    (respectively isRedirectOutput) set and input (respectively output)
    NULL exactly when that last < is read as an operator - the string
    before it is not an operator still waiting for its path - and no
    earlier < (respectively >) was given a path.  The child branch of
    ExternalCommand then calls open on the NULL path: for > as its first
    open; for < after the open of the output path, if there is one, and not
    at all when that open fails.  The failed open is reported by err and
    the child exits with the errno. *)
Theorem ParseCommand_operator_without_path (ig : bool) (before : list string)
    (o : os) :
  let cin := ParseCommand_stored ig (before ++ [INPUT]) in
  let cout := ParseCommand_stored ig (before ++ [OUTPUT]) in
  (isRedirectInput cin = true /\ input cin = None
   <-> awaits_path before = false /\ paths_given INPUT before = [])
  /\ (isRedirectOutput cout = true /\ output cout = None
      <-> awaits_path before = false /\ paths_given OUTPUT before = [])
  /\ (isRedirectOutput cout = true -> output cout = None ->
      run_child (ExternalCommand_child o cout) (mkChild shell_fds [])
      = ([ev_sigaction SIGCHLD SIG_DFL; ev_sigaction SIGTSTP SIG_IGN;
          ev_open None write_flags (-1)%Z;
          ev_err EFAULT (line "Failed to open file %s.") None;
          ev_exit EFAULT],
         Exited EFAULT))
  /\ (isRedirectInput cin = true -> input cin = None ->
      (isRedirectOutput cin = false
       \/ exists path : string,
            isRedirectOutput cin = true /\ output cin = Some path)
      /\ (isRedirectOutput cin = false ->
          run_child (ExternalCommand_child o cin) (mkChild shell_fds [])
          = ([ev_sigaction SIGCHLD SIG_DFL; ev_sigaction SIGTSTP SIG_IGN;
              ev_open None O_RDONLY (-1)%Z;
              ev_err EFAULT (line "Failed to open file %s.") None;
              ev_exit EFAULT],
             Exited EFAULT))
      /\ (forall path : string,
            isRedirectOutput cin = true -> output cin = Some path ->
            os_open o path write_flags = None ->
            run_child (ExternalCommand_child o cin) (mkChild shell_fds [])
            = ([ev_sigaction SIGCHLD SIG_DFL; ev_sigaction SIGTSTP SIG_IGN;
                ev_open (Some path) write_flags 3%Z; ev_dup2 3%Z STDOUT_FILENO;
                ev_open None O_RDONLY (-1)%Z;
                ev_err EFAULT (line "Failed to open file %s.") None;
                ev_exit EFAULT],
               Exited EFAULT))
      /\ (forall (path : string) (errno : Z),
            isRedirectOutput cin = true -> output cin = Some path ->
            os_open o path write_flags = Some errno ->
            run_child (ExternalCommand_child o cin) (mkChild shell_fds [])
            = ([ev_sigaction SIGCHLD SIG_DFL; ev_sigaction SIGTSTP SIG_IGN;
                ev_open (Some path) write_flags (-1)%Z;
                ev_err errno (line "Failed to open file %s.") (Some path);
                ev_exit errno],
               Exited errno))).
Proof.
  intros cin cout.
  pose proof (ParseCommand_loop_redirections before zeroed_cmd) as Hread.
  pose proof (ParseCommand_loop_flag_has_path before parse_start) as Hinv.
  assert (Hstart : flag_has_path parse_start)
    by (split; [discriminate|split; [discriminate|now left]]).
  specialize (Hinv Hstart). clear Hstart.
  cbv zeta in Hread.
  change (mkParse zeroed_cmd false false) with parse_start in Hread.
  assert (Ein : cin = ParseCommand_background ig
                        (cmd (ParseCommand_store
                                (fold_left ParseCommand_store before parse_start)
                                INPUT)))
    by (unfold cin, ParseCommand_stored; now rewrite fold_left_app).
  assert (Eout : cout = ParseCommand_background ig
                          (cmd (ParseCommand_store
                                  (fold_left ParseCommand_store before parse_start)
                                  OUTPUT)))
    by (unfold cout, ParseCommand_stored; now rewrite fold_left_app).
  clearbody cin cout.
  set (st := fold_left ParseCommand_store before parse_start) in *.
  clearbody st.
  destruct (ParseCommand_background_keeps_redirection ig
              (cmd (ParseCommand_store st INPUT))) as (I1 & I2 & I3 & I4).
  destruct (ParseCommand_background_keeps_redirection ig
              (cmd (ParseCommand_store st OUTPUT))) as (O1 & O2 & O3 & O4).
  rewrite <- Ein in I1, I2, I3, I4. rewrite <- Eout in O1, O2, O3, O4.
  clear Ein Eout.
  destruct Hread as (Hpend & Hi & Ho). destruct Hinv as (Hfi & Hfo & Hex).
  destruct st as [[a i ou ri ro bg] fi fo].
  unfold path_pending in Hpend.
  unfold flags_exclusive in Hex.
  cbn [cmd inputFlag outputFlag input output isRedirectInput isRedirectOutput]
    in Hpend, Hi, Ho, Hfi, Hfo, Hex.
  cbn [zeroed_cmd input output] in Hi, Ho.
  assert (Hcin : isRedirectInput cin = true /\ input cin = None
                 <-> awaits_path before = false /\ paths_given INPUT before = []).
  { rewrite I1, I3. rewrite <- Hpend. destruct fi.
    - rewrite ParseCommand_store_input_path. cbn.
      split; intros [H1 H2]; discriminate.
    - destruct fo.
      + rewrite ParseCommand_store_output_path. cbn.
        split; [|intros [H1 H2]; discriminate].
        intros [H1 H2]. destruct (Hfi H1) as [E|E]; [discriminate|].
        now contradiction E.
      + rewrite ParseCommand_store_INPUT. cbn.
        rewrite <- (last_path_none (paths_given INPUT before)), <- Hi. tauto. }
  assert (Hcout : isRedirectOutput cout = true /\ output cout = None
                  <-> awaits_path before = false /\ paths_given OUTPUT before = []).
  { rewrite O2, O4. rewrite <- Hpend. destruct fi.
    - rewrite ParseCommand_store_input_path. cbn.
      split; [|intros [H1 H2]; discriminate].
      intros [H1 H2]. destruct Hex as [Hex|Hex]; [discriminate|]. subst fo.
      destruct (Hfo H1) as [E|E]; [discriminate|now contradiction E].
    - destruct fo.
      + rewrite ParseCommand_store_output_path. cbn.
        split; intros [H1 H2]; discriminate.
      + rewrite ParseCommand_store_OUTPUT. cbn.
        rewrite <- (last_path_none (paths_given OUTPUT before)), <- Ho. tauto. }
  split; [exact Hcin|]. split; [exact Hcout|].
  split; [apply child_opens_null_output|].
  intros Hflag Hnull.
  destruct (child_opens_null_input o cin Hflag Hnull) as (T1 & T2 & T3).
  split; [|split; [exact T1|split; [exact T2|exact T3]]].
  destruct (proj1 Hcin (conj Hflag Hnull)) as [Hp _].
  rewrite <- Hpend in Hp. apply orb_false_elim in Hp as [-> ->].
  rewrite ParseCommand_store_INPUT in I2, I4. cbn in I2, I4.
  rewrite I2, I4. destruct ro; [right|now left].
  destruct (Hfo eq_refl) as [E|E]; [discriminate|].
  destruct ou as [path|]; [|now contradiction E].
  now exists path.
Qed.

Lemma ParseCommand_operator_without_path_witness :
  ParseCommand_stored false ["sort"; ">"; "out"; "<"]
  = mkCmd ["sort"] None (Some "out") true true false
  /\ ParseCommand_stored false ["sort"; "<"; "in"; ">"]
     = mkCmd ["sort"] (Some "in") None true true false
  /\ run_child (ExternalCommand_child (calm_os "sort > out <")
                  (ParseCommand_stored false ["sort"; ">"; "out"; "<"]))
               (mkChild shell_fds [])
     = ([ev_sigaction SIGCHLD SIG_DFL; ev_sigaction SIGTSTP SIG_IGN;
         ev_open (Some "out") write_flags 3%Z; ev_dup2 3%Z STDOUT_FILENO;
         ev_open None O_RDONLY (-1)%Z;
         ev_err EFAULT (line "Failed to open file %s.") None;
         ev_exit EFAULT],
        Exited EFAULT).
Proof.
  destruct (ParseCommand_operator_without_path false ["sort"; ">"; "out"]
              (calm_os "sort > out <")) as (_ & _ & _ & Hin).
  destruct (Hin eq_refl eq_refl) as (_ & _ & Hopen & _).
  split; [reflexivity|]. split; [reflexivity|].
  apply (Hopen "out"); reflexivity.
Defined.

(** C10 (as stated, refuted): a final < need not set the flag, and need not
    leave the path NULL.  With the strings cat, >, < the final < is taken
    as the output path and isRedirectInput stays false; with cat, <, f, <
    the final < sets the flag while input already holds f.  These are the
    tokens of the lines "cat > <" and "cat < f <". *)
Lemma ParseCommand_final_operator_not_always_null :
  tokens (line "cat > <") = ["cat"; ">"; "<"]
  /\ ParseCommand_stored false ["cat"; ">"; "<"]
     = mkCmd ["cat"] None (Some "<") false true false
  /\ tokens (line "cat < f <") = ["cat"; "<"; "f"; "<"]
  /\ ParseCommand_stored false ["cat"; "<"; "f"; "<"]
     = mkCmd ["cat"] (Some "f") None true false false
  /\ ~ (forall (ig : bool) (expanded : list string),
          hd_error (rev expanded) = Some INPUT ->
          isRedirectInput (ParseCommand_stored ig expanded) = true
          /\ input (ParseCommand_stored ig expanded) = None).
Proof.
  repeat (split; [vm_compute; reflexivity|]).
  intros H.
  destruct (H false ["cat"; ">"; "<"] eq_refl) as [Hflag _].
  vm_compute in Hflag. discriminate.
Qed.

(** ** The SIGTSTP toggle *)

Lemma HandleSIGTSTP_ignoreBackground (s : shell) :
  ignoreBackground (fst (HandleSIGTSTP s)) = negb (ignoreBackground s).
Proof.
  unfold HandleSIGTSTP.
  destruct (ignoreBackground s) eqn:E; cbn [negb];
    destruct (foregroundChild s) eqn:F; cbn; rewrite ?F; reflexivity.
Qed.

Lemma after_SIGTSTP_even (n : nat) (s : shell) :
  ignoreBackground (after_SIGTSTP (2 * n) s) = ignoreBackground s.
Proof.
  induction n as [|n IH]; [reflexivity|].
  replace (2 * S n)%nat with (S (S (2 * n))) by lia.
  cbn [after_SIGTSTP].
  rewrite !HandleSIGTSTP_ignoreBackground, IH. apply negb_involutive.
Qed.

(** C7: the SIGTSTP handler flips ignoreBackground, so two deliveries
    restore it, and after any even number of deliveries every line - in
    particular one that ends in the background operator - is parsed as
    before the first: ParseCommand goes the same way, and from the same
    strings it leaves the same command, with the same isBackground. *)
Theorem HandleSIGTSTP_involution (calloc_ok : nat -> bool) (s : shell) (pid : Z)
    (buf : string) (expanded : list string) (n : nat) :
  ignoreBackground (fst (HandleSIGTSTP s)) = negb (ignoreBackground s)
  /\ ignoreBackground (fst (HandleSIGTSTP (fst (HandleSIGTSTP s))))
     = ignoreBackground s
  /\ ParseCommand calloc_ok (after_SIGTSTP (2 * n) s) pid buf
     = ParseCommand calloc_ok s pid buf
  /\ ParseCommand_stored (ignoreBackground (after_SIGTSTP (2 * n) s)) expanded
     = ParseCommand_stored (ignoreBackground s) expanded
  /\ isBackground
       (ParseCommand_stored (ignoreBackground (after_SIGTSTP (2 * n) s))
                            (expanded ++ [BACKGROUND]))
     = isBackground
         (ParseCommand_stored (ignoreBackground s) (expanded ++ [BACKGROUND])).
Proof.
  split; [apply HandleSIGTSTP_ignoreBackground|].
  split; [rewrite !HandleSIGTSTP_ignoreBackground; apply negb_involutive|].
  split; [unfold ParseCommand; now rewrite after_SIGTSTP_even|].
  split; now rewrite after_SIGTSTP_even.
Qed.

(** One delivery does change what a line ending in the operator parses to. *)
Example SIGTSTP_once_disables_background :
  isBackground (ParseCommand_stored (ignoreBackground initial_shell)
                                    ["sleep"; "5"; "&"]) = true
  /\ isBackground (ParseCommand_stored
                     (ignoreBackground (after_SIGTSTP 1 initial_shell))
                     ["sleep"; "5"; "&"]) = false
  /\ isBackground (ParseCommand_stored
                     (ignoreBackground (after_SIGTSTP 2 initial_shell))
                     ["sleep"; "5"; "&"]) = true.
Proof. repeat split; vm_compute; reflexivity. Qed.

(** ** Dispatch on the first argument *)

Lemma RunCommand_dispatch_cases (arg0 : string) (rest : list string)
    (i o : option string) (ri ro bg : bool) :
  let command := mkCmd (arg0 :: rest) i o ri ro bg in
  (starts_with_comment arg0 /\ RunCommand_dispatch command = CommentLine)
  \/ (~ starts_with_comment arg0 /\ arg0 = CD_CMD
      /\ RunCommand_dispatch command = BuiltinCd)
  \/ (~ starts_with_comment arg0 /\ arg0 <> CD_CMD /\ arg0 = EXIT_CMD
      /\ RunCommand_dispatch command = BuiltinExit)
  \/ (~ starts_with_comment arg0 /\ arg0 <> CD_CMD /\ arg0 <> EXIT_CMD
      /\ arg0 = STATUS_CMD /\ RunCommand_dispatch command = BuiltinStatus)
  \/ (~ starts_with_comment arg0 /\ arg0 <> CD_CMD /\ arg0 <> EXIT_CMD
      /\ arg0 <> STATUS_CMD /\ RunCommand_dispatch command = External).
Proof.
  intros command. unfold RunCommand_dispatch, command. cbn [args].
  destruct (CLib.strncmp arg0 COMMENT COMMENT_LEN =? 0)%Z eqn:E1.
  { apply Z.eqb_eq, strncmp_first in E1. left. now split. }
  apply Z.eqb_neq in E1.
  assert (H1 : ~ starts_with_comment arg0)
    by (intros H; apply E1; now apply strncmp_first).
  right.
  destruct (CLib.strncmp arg0 CD_CMD CD_LEN =? 0)%Z eqn:E2.
  { apply Z.eqb_eq, strncmp_exact in E2; [|cbv; lia]. left. now repeat split. }
  apply Z.eqb_neq in E2.
  assert (H2 : arg0 <> CD_CMD)
    by (intros H; apply E2; apply strncmp_exact; [cbv; lia|assumption]).
  right.
  destruct (CLib.strncmp arg0 EXIT_CMD EXIT_LEN =? 0)%Z eqn:E3.
  { apply Z.eqb_eq, strncmp_exact in E3; [|cbv; lia]. left. now repeat split. }
  apply Z.eqb_neq in E3.
  assert (H3 : arg0 <> EXIT_CMD)
    by (intros H; apply E3; apply strncmp_exact; [cbv; lia|assumption]).
  right.
  destruct (CLib.strncmp arg0 STATUS_CMD STATUS_LEN =? 0)%Z eqn:E4.
  { apply Z.eqb_eq, strncmp_exact in E4; [|cbv; lia]. left. now repeat split. }
  apply Z.eqb_neq in E4.
  assert (H4 : arg0 <> STATUS_CMD)
    by (intros H; apply E4; apply strncmp_exact; [cbv; lia|assumption]).
  right. now repeat split.
Qed.

(** C9: RunCommand treats a first argument as a comment as soon as its first
    character is #, whatever follows (and then does nothing); it runs
    MyChangeDir for the first argument cd, MyExit for exit and MyStatus for
    status, and only when the first argument is exactly that name: any
    other first argument, such as exitnow or statusx, is run by
    ExternalCommand. *)
Theorem RunCommand_comment_prefix_builtin_exact (arg0 : string)
    (rest : list string) (i o : option string) (ri ro bg : bool)
    (w : os) (s : shell) :
  let command := mkCmd (arg0 :: rest) i o ri ro bg in
  (RunCommand_dispatch command = CommentLine <-> starts_with_comment arg0)
  /\ (starts_with_comment arg0 -> RunCommand w command s = ([], Running s))
  /\ (RunCommand_dispatch command = BuiltinCd <-> arg0 = CD_CMD)
  /\ (RunCommand_dispatch command = BuiltinExit <-> arg0 = EXIT_CMD)
  /\ (RunCommand_dispatch command = BuiltinStatus <-> arg0 = STATUS_CMD)
  /\ (arg0 = CD_CMD -> RunCommand w command s = MyChangeDir w command s)
  /\ (arg0 = EXIT_CMD -> RunCommand w command s = MyExit w command s)
  /\ (arg0 = STATUS_CMD -> RunCommand w command s = MyStatus s)
  /\ (~ starts_with_comment arg0 -> arg0 <> CD_CMD -> arg0 <> EXIT_CMD ->
      arg0 <> STATUS_CMD ->
      RunCommand w command s = ExternalCommand w command s)
  /\ RunCommand_dispatch (mkCmd ("#foo" :: rest) i o ri ro bg) = CommentLine
  /\ RunCommand w (mkCmd ("exitnow" :: rest) i o ri ro bg) s
     = ExternalCommand w (mkCmd ("exitnow" :: rest) i o ri ro bg) s
  /\ RunCommand w (mkCmd ("statusx" :: rest) i o ri ro bg) s
     = ExternalCommand w (mkCmd ("statusx" :: rest) i o ri ro bg) s.
Proof.
  intros command.
  assert (Hcd : ~ starts_with_comment CD_CMD) by (intros [t H]; discriminate).
  assert (Hexit : ~ starts_with_comment EXIT_CMD) by (intros [t H]; discriminate).
  assert (Hstatus : ~ starts_with_comment STATUS_CMD) by (intros [t H]; discriminate).
  pose proof (RunCommand_dispatch_cases arg0 rest i o ri ro bg) as H.
  cbv zeta in H. fold command in H. unfold RunCommand.
  destruct H as [(Hc & ->)|[(Hc & H2 & ->)|[(Hc & H2 & H3 & ->)
                |[(Hc & H2 & H3 & H4 & ->)|(Hc & H2 & H3 & H4 & ->)]]]];
    (repeat split; try reflexivity; try discriminate; try tauto;
     try congruence;
     try (intros Heq; rewrite Heq in *; discriminate)).
Qed.

(** ** exit *)

Lemma MyExit_loop_events (o : os) (slots : list Z) :
  forall s : shell,
    snd (MyExit_loop o slots s) = flat_map terminate_and_wait (registered slots).
Proof.
  induction slots as [|slot rest IH]; intros s; [reflexivity|].
  cbn [MyExit_loop registered filter].
  destruct (negb (slot =? 0)%Z).
  - specialize (IH (set_childStatus (os_wait o slot) s)).
    destruct (MyExit_loop o rest (set_childStatus (os_wait o slot) s)) as [s2 evs].
    cbn [snd flat_map terminate_and_wait app] in *. now rewrite IH.
  - apply IH.
Qed.

Lemma MyExit_events (o : os) (command : cmdStruct) (s : shell) :
  MyExit o command s =
  (flat_map terminate_and_wait (registered (childPids s)) ++ [ev_exit EXIT_SUCCESS],
   Exited EXIT_SUCCESS).
Proof.
  unfold MyExit. pose proof (MyExit_loop_events o (childPids s) s) as H.
  destruct (MyExit_loop o (childPids s) s) as [s' evs]. cbn [snd] in H.
  now rewrite H.
Qed.

Lemma flat_map_terminate_split (pid : Z) (pids : list Z) :
  In pid pids ->
  exists before after : list event,
    flat_map terminate_and_wait pids =
    before ++ ev_kill pid SIGTERM :: ev_waitpid pid 0%Z :: after.
Proof.
  induction pids as [|p pids IH]; intros Hin; [contradiction|].
  destruct Hin as [->|Hin].
  - exists [], (flat_map terminate_and_wait pids). reflexivity.
  - destruct (IH Hin) as (before & after & H).
    exists (terminate_and_wait p ++ before), after.
    cbn [flat_map]. rewrite H. now rewrite <- app_assoc.
Qed.

Lemma flat_map_terminate_no_output (pids : list Z) (text : string) :
  ~ In (ev_stdout text) (flat_map terminate_and_wait pids).
Proof.
  induction pids as [|p pids IH]; [intros []|].
  cbn. intros [H|[H|H]]; try discriminate. now apply IH.
Qed.

(** C5: MyExit sends SIGTERM to every pid still in the job table and waits
    for it with a blocking waitpid, slot after slot, and calls
    exit( EXIT_SUCCESS ) only after the last of them; the built-in writes
    nothing to the standard output, and once RunCommand has run it the
    process is gone: later passes of the loop of main add no event, so no
    background report follows. *)
Theorem MyExit_terminates_every_registered_child (o : os) (command : cmdStruct)
    (s : shell) :
  MyExit o command s =
  (flat_map terminate_and_wait (registered (childPids s)) ++ [ev_exit EXIT_SUCCESS],
   Exited EXIT_SUCCESS)
  /\ (forall pid : Z,
        In pid (childPids s) -> pid <> 0%Z ->
        exists before after : list event,
          fst (MyExit o command s) =
          before ++ ev_kill pid SIGTERM :: ev_waitpid pid 0%Z :: after
                 ++ [ev_exit EXIT_SUCCESS])
  /\ (forall text : string, ~ In (ev_stdout text) (fst (MyExit o command s)))
  /\ (forall (later : list os) (ret : Z) (parsed : cmdStruct),
        pass_command o s = Done (ret, parsed) ->
        RunCommand_dispatch parsed = BuiltinExit ->
        main_loop (o :: later) s = main_pass o s
        /\ main_pass o s =
           Some (snd (fst (GetInput o BUF_SIZE s))
                 ++ snd (deliver_all (os_signals_at_prompt o)
                                     (fst (fst (GetInput o BUF_SIZE s))))
                 ++ fst (MyExit o parsed (pass_shell o s)),
                 Exited EXIT_SUCCESS)).
Proof.
  rewrite MyExit_events. cbn [fst].
  split; [reflexivity|]. split; [|split].
  - intros pid Hin Hnz.
    destruct (flat_map_terminate_split pid (registered (childPids s)))
      as (before & after & H).
    { unfold registered. apply filter_In. split; [assumption|].
      apply negb_true_iff, Z.eqb_neq. assumption. }
    exists before, after. rewrite H. rewrite <- app_assoc. reflexivity.
  - intros text Hin. apply in_app_or in Hin as [Hin|[Hin|[]]]; [|discriminate].
    now apply flat_map_terminate_no_output in Hin.
  - intros later ret parsed Hparsed Hexit.
    assert (Hpass : main_pass o s =
              Some (snd (fst (GetInput o BUF_SIZE s))
                    ++ snd (deliver_all (os_signals_at_prompt o)
                                        (fst (fst (GetInput o BUF_SIZE s))))
                    ++ fst (MyExit o parsed (pass_shell o s)),
                    Exited EXIT_SUCCESS)).
    { unfold main_pass, pass_command, pass_shell in *.
      destruct (GetInput o BUF_SIZE s) as [[s1 ev1] buf]. cbn [fst snd] in *.
      destruct (deliver_all (os_signals_at_prompt o) s1) as [s2 ev2].
      cbn [fst snd] in *. rewrite Hparsed. unfold RunCommand. rewrite Hexit.
      rewrite MyExit_events. reflexivity. }
    cbn [main_loop]. rewrite Hpass. auto.
Qed.

(** ** What status reports *)

Lemma MyStatus_keeps_shell (s : shell) : snd (MyStatus s) = Running s.
Proof. reflexivity. Qed.


Lemma RemoveChildPid_childStatus (pid : Z) (s : shell) :
  childStatus (RemoveChildPid pid s) = childStatus s.
Proof. reflexivity. Qed.




(** C2 (the code at the failing inputs): a foreground child that calls
    exit( 2 ) leaves childStatus at 1, the truth value of WIFEXITED, and
    status prints 1; one killed by signal 15 has its signal reported when
    it ends, but status then prints "exit status 15", the raw status word,
    in the exit-status wording. *)
Lemma foreground_status_loses_exit_code :
  (exists s' : shell,
     ExternalCommand (with_wait (fun _ => Wait.exited_with 2)
                                (calm_os "grep -q x nofile"))
                     (mkCmd ["grep"; "-q"; "x"; "nofile"] None None false false false)
                     initial_shell
     = ([ev_fork 4321%Z; ev_waitpid 4321%Z 0%Z], Running s')
     /\ childStatus s' = 1%Z
     /\ MyStatus s' = ([ev_stdout (line "exit status 1")], Running s'))
  /\ (exists s' : shell,
        ExternalCommand (with_wait (fun _ => Wait.killed_by 15) (calm_os "sleep 100"))
                        (mkCmd ["sleep"; "100"] None None false false false)
                        initial_shell
        = ([ev_fork 4321%Z; ev_waitpid 4321%Z 0%Z;
            ev_stdout (line "terminated by signal 15")], Running s')
        /\ childStatus s' = 15%Z
        /\ MyStatus s' = ([ev_stdout (line "exit status 15")], Running s')).
Proof.
  split; eexists; (split; [vm_compute; reflexivity|]);
    split; vm_compute; reflexivity.
Qed.

(** ** The descriptors of a background child *)

Lemma background_child_started (o : os) (c : cmdStruct) (evs : list event)
    (prog : string) (argv : list string) (fds : fd_table) :
  isBackground c = true ->
  run_child (ExternalCommand_child o c) (mkChild shell_fds [])
  = (evs, Replaced prog argv fds) ->
  exists outPath inPath : string,
    background_path (isRedirectOutput c) (output c) = Some outPath
    /\ background_path (isRedirectInput c) (input c) = Some inPath
    /\ fd_lookup fds STDOUT_FILENO = Some (OpenFile outPath write_flags)
    /\ fd_lookup fds STDIN_FILENO = Some (OpenFile inPath O_RDONLY).
Proof.
  intros Hbg Hrun.
  destruct c as [a i ou ri ro bg]. cbn in Hbg. subst bg.
  unfold background_path. cbn [isRedirectOutput isRedirectInput output input].
  unfold run_child, ExternalCommand_child, OPEN_FILE_WRITE, OPEN_FILE_READ,
    UTL_OpenFile, c_bind, c_emit, c_ret, c_exit, sys_open, sys_dup2, sys_close,
    sys_execvp in Hrun.
  cbn [isRedirectOutput isRedirectInput isBackground output input args negb
       c_fds c_trace] in Hrun.
  change (Z.lor (Z.lor O_WRONLY O_CREAT) O_TRUNC) with 577%Z in Hrun.
  change write_flags with 577%Z. change O_RDONLY with 0%Z in *.
  unfold DEV_NULL in *.
  destruct ro, ri, ou as [ou|], i as [i|]; cbn in Hrun;
    repeat match type of Hrun with
           | context [os_open ?w ?path ?flag] =>
               destruct (os_open w path flag) eqn:?; cbn in Hrun
           end;
    try discriminate;
    (destruct a as [|file rest]; cbn in Hrun; [discriminate|]);
    (destruct (os_execvp o file) eqn:?; cbn in Hrun; [|discriminate]);
    inversion Hrun; subst; clear Hrun;
    eexists; eexists; repeat split; reflexivity.
Qed.

(** C6: in the child of a background command, a direction that is not
    redirected is opened on /dev/null and a redirected one on the path
    given, and the descriptor is duplicated onto the standard one.  Whenever
    the program of such a child starts, its standard output and input are
    on exactly those files - with no redirection at all, both on
    /dev/null - and it does start when the files open and execvp finds the
    program; otherwise the child ends at the failed call. *)
Theorem background_child_descriptors (o : os) (c : cmdStruct) :
  isBackground c = true ->
  (forall (evs : list event) (prog : string) (argv : list string) (fds : fd_table),
      run_child (ExternalCommand_child o c) (mkChild shell_fds [])
      = (evs, Replaced prog argv fds) ->
      exists outPath inPath : string,
        background_path (isRedirectOutput c) (output c) = Some outPath
        /\ background_path (isRedirectInput c) (input c) = Some inPath
        /\ fd_lookup fds STDOUT_FILENO = Some (OpenFile outPath write_flags)
        /\ fd_lookup fds STDIN_FILENO = Some (OpenFile inPath O_RDONLY))
  /\ (forall (prog : string) (rest : list string) (outPath inPath : string),
        args c = prog :: rest ->
        background_path (isRedirectOutput c) (output c) = Some outPath ->
        background_path (isRedirectInput c) (input c) = Some inPath ->
        os_open o outPath write_flags = None ->
        os_open o inPath O_RDONLY = None ->
        os_execvp o prog = true ->
        exists (evs : list event) (fds : fd_table),
          run_child (ExternalCommand_child o c) (mkChild shell_fds [])
          = (evs, Replaced prog (args c) fds)
          /\ fd_lookup fds STDOUT_FILENO = Some (OpenFile outPath write_flags)
          /\ fd_lookup fds STDIN_FILENO = Some (OpenFile inPath O_RDONLY))
  /\ (isRedirectOutput c = false -> isRedirectInput c = false ->
      background_path (isRedirectOutput c) (output c) = Some DEV_NULL
      /\ background_path (isRedirectInput c) (input c) = Some DEV_NULL).
Proof.
  intros Hbg. split; [|split].
  - intros evs prog argv fds Hrun.
    now apply (background_child_started o c evs prog argv fds).
  - intros prog rest outPath inPath Hargs Hout Hin Hoo Hoi Hex.
    destruct c as [a i ou ri ro bg]. cbn in Hbg, Hargs, Hout, Hin. subst bg a.
    unfold background_path in Hout, Hin.
    unfold run_child, ExternalCommand_child, OPEN_FILE_WRITE, OPEN_FILE_READ,
      UTL_OpenFile, c_bind, c_emit, c_ret, sys_open, sys_dup2, sys_execvp.
    cbn [isRedirectOutput isRedirectInput isBackground output input args negb
         hd_error c_fds c_trace].
    change (Z.lor (Z.lor O_WRONLY O_CREAT) O_TRUNC) with 577%Z.
    change write_flags with 577%Z in *. change O_RDONLY with 0%Z in *.
    destruct ro, ri; cbn [negb];
      repeat match goal with
             | H : Some _ = Some _ |- _ => inversion H; clear H
             end; subst; unfold DEV_NULL in *;
      repeat (progress (cbn; rewrite ?Hoo, ?Hoi, ?Hex));
      eexists; eexists; (split; [reflexivity|]); split; reflexivity.
  - intros -> ->. split; reflexivity.
Qed.

Lemma background_child_descriptors_witness :
  exists (evs : list event) (fds : fd_table),
    run_child (ExternalCommand_child (calm_os "sleep 5 &")
                 (mkCmd ["sleep"; "5"] None None false false true))
              (mkChild shell_fds [])
    = (evs, Replaced "sleep" ["sleep"; "5"] fds)
    /\ fd_lookup fds STDOUT_FILENO = Some (OpenFile DEV_NULL write_flags)
    /\ fd_lookup fds STDIN_FILENO = Some (OpenFile DEV_NULL O_RDONLY).
Proof.
  destruct (background_child_descriptors (calm_os "sleep 5 &")
              (mkCmd ["sleep"; "5"] None None false false true) eq_refl)
    as (_ & Hstarts & _).
  apply (Hstarts "sleep" ["5"] DEV_NULL DEV_NULL); reflexivity.
Defined.

(** A background command that redirects its output keeps the file it names
    and gets /dev/null only for its input; a foreground command with no
    redirection keeps the descriptors of the shell. *)
Example child_descriptors_examples :
  (exists evs fds,
      run_child (ExternalCommand_child (calm_os "ls > out &")
                   (mkCmd ["ls"] None (Some "out") false true true))
                (mkChild shell_fds [])
      = (evs, Replaced "ls" ["ls"] fds)
      /\ fd_lookup fds STDOUT_FILENO = Some (OpenFile "out" write_flags)
      /\ fd_lookup fds STDIN_FILENO = Some (OpenFile DEV_NULL O_RDONLY))
  /\ (exists evs fds,
         run_child (ExternalCommand_child (calm_os "ls")
                      (mkCmd ["ls"] None None false false false))
                   (mkChild shell_fds [])
         = (evs, Replaced "ls" ["ls"] fds)
         /\ fd_lookup fds STDOUT_FILENO = Some Terminal
         /\ fd_lookup fds STDIN_FILENO = Some Terminal).
Proof.
  split; eexists; eexists; (split; [vm_compute; reflexivity|]);
    split; reflexivity.
Qed.

(** ** The block ExpandPID allocates *)

(** C1 (the code at the failing input): for the one-character token "a"
    ExpandPID asks calloc for ( 1 / 2 ) * pidLen + 1 = 1 byte and stores the
    character over the only NUL of the block: what it returns holds no
    terminated string.  The same happens to every one-character token, the
    operators included, and to longer words when the pid has few digits
    (41 characters need 42 bytes, a one-digit pid gets them 21); the token
    a$$$$b with a four-digit pid fits. *)
Lemma ExpandPID_single_character_overflow :
  CLib.calloc ((CLib.strlen "a" / 2) * CLib.strlen (pid_string 1234) + 1)
  = [CLib.NUL]
  /\ ExpandPID_loop (pid_string 1234) 4 "a" [CLib.NUL] 0 = Some ["a"%char]
  /\ CLib.string_at ["a"%char] = None
  /\ ExpandPID 1234 "a" = None
  /\ ExpandPID 1234 "&" = None
  /\ ExpandPID 1234 "$$a" = None
  /\ ExpandPID 7 "a-word-of-forty-one-characters-0123456789" = None
  /\ ExpandPID 1234 "a$$$$b" = Some "a12341234b".
Proof. repeat split; vm_compute; reflexivity. Qed.

(** *** When the expansion fits the block, and when it does not *)

Section Block.

Local Abbreviation chars := list_ascii_of_string.
Local Abbreviation zeros := (repeat CLib.NUL).

Lemma chars_app (s1 s2 : string) : chars (s1 ++ s2) = chars s1 ++ chars s2.
Proof. induction s1 as [|c s1 IH]; simpl; [reflexivity|now rewrite IH]. Qed.

Lemma chars_length (s : string) : List.length (chars s) = String.length s.
Proof. induction s as [|c s IH]; simpl; [reflexivity|now rewrite IH]. Qed.

Lemma firstn_length_app (w rest : list ascii) :
  firstn (List.length w) (w ++ rest) = w.
Proof. induction w as [|a w IH]; simpl; [now destruct rest|now rewrite IH]. Qed.

Lemma skipn_length_app (w rest : list ascii) (c0 : ascii) :
  skipn (S (List.length w)) (w ++ c0 :: rest) = rest.
Proof. induction w as [|a w IH]; simpl; [reflexivity|exact IH]. Qed.

Lemma store_at_end (w rest : list ascii) (c0 c : ascii) :
  CLib.store (w ++ c0 :: rest) (List.length w) c = Some ((w ++ [c]) ++ rest).
Proof.
  unfold CLib.store. rewrite length_app. simpl.
  replace (List.length w <? List.length w + S (List.length rest))%nat with true
    by (symmetry; apply Nat.ltb_lt; lia).
  rewrite firstn_length_app.
  change (match w ++ c0 :: rest with
          | [] => []
          | _ :: l => skipn (List.length w) l
          end) with (skipn (S (List.length w)) (w ++ c0 :: rest)).
  rewrite skipn_length_app. now rewrite <- app_assoc.
Qed.

Lemma store_past_end (w : list ascii) (c : ascii) :
  CLib.store w (List.length w) c = None.
Proof. unfold CLib.store. now rewrite Nat.ltb_irrefl. Qed.

Lemma find_nul_none (w : list ascii) : nul_free w -> CLib.find_nul w = None.
Proof.
  induction 1 as [|c w Hc Hw IH]; [reflexivity|].
  simpl. destruct (Ascii.eqb_spec c CLib.NUL); [contradiction|].
  now rewrite IH.
Qed.

Lemma find_nul_first (w rest : list ascii) :
  nul_free w -> CLib.find_nul (w ++ CLib.NUL :: rest) = Some (List.length w).
Proof.
  induction 1 as [|c w Hc Hw IH]; [reflexivity|].
  simpl. destruct (Ascii.eqb_spec c CLib.NUL); [contradiction|].
  now rewrite IH.
Qed.

Lemma store_all_zeros (cs : list ascii) :
  forall (w : list ascii) (k : nat),
    CLib.store_all (w ++ zeros k) (List.length w) cs =
    if (List.length cs <=? k)%nat
    then Some ((w ++ cs) ++ zeros (k - List.length cs))
    else None.
Proof.
  induction cs as [|c cs IH]; intros w k.
  - simpl. now rewrite app_nil_r, Nat.sub_0_r.
  - cbn [CLib.store_all List.length]. destruct k as [|k].
    + simpl. rewrite app_nil_r, store_past_end. reflexivity.
    + cbn [repeat]. rewrite store_at_end.
      replace (S (List.length w)) with (List.length (w ++ [c]))
        by (rewrite length_app; simpl; lia).
      rewrite IH. cbn [Nat.leb Nat.sub].
      now rewrite <- (app_assoc w [c] cs).
Qed.

Lemma strncat_zeros (p : string) (w : list ascii) (k : nat) :
  nul_free w ->
  CLib.strncat (w ++ zeros k) p (String.length p) =
  if (String.length p + 1 <=? k)%nat
  then Some ((w ++ chars p) ++ zeros (k - String.length p))
  else None.
Proof.
  intros Hw. unfold CLib.strncat. destruct k as [|k].
  - simpl. rewrite app_nil_r, find_nul_none by assumption.
    now rewrite Nat.add_1_r.
  - cbn [repeat]. rewrite find_nul_first by assumption.
    change (w ++ CLib.NUL :: zeros k) with (w ++ zeros (S k)).
    rewrite <- chars_length, firstn_all, store_all_zeros.
    rewrite length_app. cbn [List.length].
    destruct (List.length (chars p) + 1 <=? S k)%nat eqn:E; [|reflexivity].
    apply Nat.leb_le in E. f_equal.
    rewrite <- !app_assoc. f_equal. f_equal.
    replace (S k - List.length (chars p))%nat
      with (S (S k - (List.length (chars p) + 1)))%nat by lia.
    reflexivity.
Qed.

Variable pidStr : string.
Hypothesis pidStr_nul_free : nul_free (chars pidStr).

Lemma ExpandPID_loop_pair (c c' : ascii) (rest : string)
    (block : list ascii) (idx : nat) :
  ExpandPID_loop pidStr (String.length pidStr) (String c (String c' rest)) block idx =
  if ((c =? "$")%char && (c' =? "$")%char)%bool then
    match CLib.strncat block pidStr (String.length pidStr) with
    | Some block' =>
        ExpandPID_loop pidStr (String.length pidStr) rest block'
                       (idx + String.length pidStr)
    | None => None
    end
  else
    match CLib.store block idx c with
    | Some block' =>
        ExpandPID_loop pidStr (String.length pidStr) (String c' rest) block' (idx + 1)
    | None => None
    end.
Proof. reflexivity. Qed.

Lemma ExpandPID_text_pair (c c' : ascii) (rest : string) :
  ExpandPID_text pidStr (String c (String c' rest)) =
  if ((c =? "$")%char && (c' =? "$")%char)%bool
  then (pidStr ++ ExpandPID_text pidStr rest)%string
  else String c (ExpandPID_text pidStr (String c' rest)).
Proof. reflexivity. Qed.

Lemma ExpandPID_text_nul_free (arg : string) :
  (nul_free (chars arg) -> nul_free (chars (ExpandPID_text pidStr arg)))
  /\ (forall c : ascii,
        nul_free (chars (String c arg)) ->
        nul_free (chars (ExpandPID_text pidStr (String c arg)))).
Proof.
  induction arg as [|c' arg [IH1 IH2]].
  - split; intros; simpl; assumption.
  - split; [apply IH2|]. intros c Hc.
    rewrite ExpandPID_text_pair.
    destruct ((c =? "$")%char && (c' =? "$")%char)%bool.
    + rewrite chars_app. apply Forall_app. split; [assumption|].
      apply IH1. inversion Hc as [|? ? _ Hc']. now inversion Hc'.
    + inversion Hc as [|? ? Hc0 Hc']. constructor; [assumption|].
      now apply IH2.
Qed.

Lemma nul_free_snoc (w : list ascii) (c : ascii) :
  nul_free w -> c <> CLib.NUL -> nul_free (w ++ [c]).
Proof. intros Hw Hc. apply Forall_app. split; [assumption|now constructor]. Qed.

Lemma loop_plain_step (c : ascii) (rest : string) (w : list ascii) (k : nat) :
  match CLib.store (w ++ zeros k) (List.length w) c with
  | Some block =>
      ExpandPID_loop pidStr (String.length pidStr) rest block (List.length w + 1)
  | None => None
  end =
  match k with
  | O => None
  | S k' =>
      ExpandPID_loop pidStr (String.length pidStr) rest
                     ((w ++ [c]) ++ zeros k') (List.length (w ++ [c]))
  end.
Proof.
  destruct k as [|k'].
  - simpl. now rewrite app_nil_r, store_past_end.
  - cbn [repeat]. rewrite store_at_end, length_app. reflexivity.
Qed.

Lemma ExpandPID_loop_fits (arg : string) :
  loop_fits pidStr arg /\ (forall c : ascii, loop_fits pidStr (String c arg)).
Proof.
  induction arg as [|c' arg [IH1 IH2]].
  - split.
    + intros w k Hw Ha text Hk. simpl. now rewrite app_nil_r, Nat.sub_0_r.
    + intros c w k Hw Ha text Hk. subst text. cbn [ExpandPID_loop].
      simpl in Hk. destruct k as [|k]; [lia|].
      cbn [repeat]. rewrite store_at_end. simpl. now rewrite Nat.sub_0_r.
  - split; [apply IH2|]. intros c w k Hw Ha text Hk. subst text.
    inversion Ha as [|? ? Hc Ha']. inversion Ha' as [|? ? Hc' Ha'']. subst.
    rewrite ExpandPID_loop_pair. rewrite ExpandPID_text_pair in *.
    destruct ((c =? "$")%char && (c' =? "$")%char)%bool.
    + rewrite chars_app, length_app, chars_length in Hk.
      rewrite strncat_zeros by assumption.
      replace (String.length pidStr + 1 <=? k)%nat with true
        by (symmetry; apply Nat.leb_le; lia).
      replace (List.length w + String.length pidStr)%nat
        with (List.length (w ++ chars pidStr))
        by (now rewrite length_app, chars_length).
      rewrite IH1; [|apply Forall_app; split; assumption|assumption|lia].
      rewrite chars_app, length_app, !chars_length, <- !app_assoc.
      do 5 f_equal. lia.
    + rewrite loop_plain_step. cbn [chars List.length] in Hk.
      destruct k as [|k]; [lia|].
      rewrite IH2; [|now apply nul_free_snoc|assumption|lia].
      cbn [chars List.length Nat.sub]. now rewrite <- !app_assoc.
Qed.

Lemma ExpandPID_loop_overflows (arg : string) :
  loop_overflows pidStr arg /\ (forall c : ascii, loop_overflows pidStr (String c arg)).
Proof.
  induction arg as [|c' arg [IH1 IH2]].
  - split.
    + intros w k Hw Ha text Hk. simpl in *.
      assert (k = 0)%nat as -> by lia. simpl. rewrite app_nil_r.
      now apply find_nul_none.
    + intros c w k Hw Ha text Hk. subst text. cbn [ExpandPID_loop].
      simpl in Hk. destruct k as [|k].
      * simpl. now rewrite app_nil_r, store_past_end.
      * assert (k = 0)%nat as -> by lia.
        cbn [repeat]. rewrite store_at_end, app_nil_r.
        apply find_nul_none, nul_free_snoc; [assumption|].
        now inversion Ha.
  - split; [apply IH2|]. intros c w k Hw Ha text Hk. subst text.
    inversion Ha as [|? ? Hc Ha']. inversion Ha' as [|? ? Hc' Ha'']. subst.
    rewrite ExpandPID_loop_pair. rewrite ExpandPID_text_pair in *.
    destruct ((c =? "$")%char && (c' =? "$")%char)%bool.
    + rewrite chars_app, length_app, chars_length in Hk.
      rewrite strncat_zeros by assumption.
      destruct (String.length pidStr + 1 <=? k)%nat eqn:E; [|exact I].
      apply Nat.leb_le in E.
      replace (List.length w + String.length pidStr)%nat
        with (List.length (w ++ chars pidStr))
        by (now rewrite length_app, chars_length).
      apply IH1; [apply Forall_app; split; assumption|assumption|lia].
    + rewrite loop_plain_step. cbn [chars List.length] in Hk.
      destruct k as [|k]; [exact I|].
      apply IH2; [now apply nul_free_snoc|assumption|lia].
Qed.

End Block.

Lemma string_of_uint_nul_free (d : Decimal.uint) :
  nul_free (list_ascii_of_string (NilEmpty.string_of_uint d)).
Proof.
  induction d; simpl; try constructor; try assumption; discriminate.
Qed.

Lemma substring_nul_free (n : nat) :
  forall s : string,
    nul_free (list_ascii_of_string s) ->
    nul_free (list_ascii_of_string (String.substring 0 n s)).
Proof.
  induction n as [|n IH]; intros s Hs.
  - destruct s; constructor.
  - destruct s as [|c s]; [constructor|].
    inversion Hs; subst. simpl. constructor; [assumption|]. now apply IH.
Qed.

Lemma pid_string_nul_free (pid : Z) :
  nul_free (list_ascii_of_string (pid_string pid)).
Proof.
  unfold pid_string, CLib.snprintf_d, CLib.fmt_d. apply substring_nul_free.
  unfold NilZero.string_of_int, NilZero.string_of_uint.
  destruct (Z.to_int pid) as [d|d].
  - destruct d; try apply string_of_uint_nul_free.
    repeat constructor; discriminate.
  - constructor; [discriminate|].
    destruct d; try apply string_of_uint_nul_free.
    repeat constructor; discriminate.
Qed.

(** ExpandPID returns the expansion exactly when the expansion is no longer
    than ( n / 2 ) * pidLen, the bytes the block has before its last one;
    for every other token it returns no string at all. *)
Theorem ExpandPID_block_bound (pid : Z) (arg : string) :
  nul_free (list_ascii_of_string arg) ->
  ExpandPID pid arg =
  if (String.length (ExpandPID_text (pid_string pid) arg)
      <=? (String.length arg / 2) * String.length (pid_string pid))%nat
  then Some (ExpandPID_text (pid_string pid) arg)
  else None.
Proof.
  intros Harg. unfold ExpandPID, CLib.strlen, CLib.calloc.
  fold (pid_string pid).
  set (text := ExpandPID_text (pid_string pid) arg).
  set (room := (String.length arg / 2 * String.length (pid_string pid))%nat).
  pose proof (pid_string_nul_free pid) as Hpid.
  assert (Htext : nul_free (list_ascii_of_string text))
    by (now apply (ExpandPID_text_nul_free (pid_string pid) Hpid arg)).
  destruct (String.length text <=? room)%nat eqn:E.
  - apply Nat.leb_le in E.
    pose proof (proj1 (ExpandPID_loop_fits (pid_string pid) Hpid arg)
                  [] (room + 1)%nat ltac:(constructor) Harg) as H.
    cbv zeta in H. fold text in H. rewrite chars_length in H.
    specialize (H ltac:(lia)). cbn [app List.length] in H. rewrite H.
    replace (room + 1 - String.length text)%nat
      with (S (room - String.length text)) by lia.
    unfold CLib.string_at. cbn [repeat].
    rewrite find_nul_first by assumption.
    now rewrite firstn_length_app, string_of_list_ascii_of_string.
  - apply Nat.leb_gt in E.
    pose proof (proj1 (ExpandPID_loop_overflows (pid_string pid) Hpid arg)
                  [] (room + 1)%nat ltac:(constructor) Harg) as H.
    cbv zeta in H. fold text in H. rewrite chars_length in H.
    specialize (H ltac:(lia)). cbn [app List.length] in H.
    destruct (ExpandPID_loop (pid_string pid) (String.length (pid_string pid)) arg
                (repeat CLib.NUL (room + 1)) 0) as [block|]; [|reflexivity].
    unfold CLib.string_at. now rewrite H.
Qed.

Lemma ExpandPID_block_bound_witness :
  ExpandPID 1234 "a$$$$b" = Some "a12341234b" /\ ExpandPID 1234 "a" = None.
Proof.
  split.
  - rewrite (ExpandPID_block_bound 1234 "a$$$$b");
      [reflexivity|repeat constructor; discriminate].
  - rewrite (ExpandPID_block_bound 1234 "a");
      [reflexivity|repeat constructor; discriminate].
Defined.

(** Whenever ExpandPID returns a string, it is the text ParseCommand is
    modelled on. *)
Lemma ExpandPID_returns_text (pid : Z) (arg text : string) :
  nul_free (list_ascii_of_string arg) ->
  ExpandPID pid arg = Some text ->
  text = ExpandPID_text (pid_string pid) arg.
Proof.
  intros Harg H. rewrite ExpandPID_block_bound in H by assumption.
  destruct (String.length (ExpandPID_text (pid_string pid) arg)
            <=? String.length arg / 2 * String.length (pid_string pid))%nat;
    [now inversion H|discriminate].
Qed.

(** *** What the expansion is *)

Lemma ExpandPID_text_unchanged (pidStr arg : string) :
  (has_PID_VAR arg = false -> ExpandPID_text pidStr arg = arg)
  /\ (forall c : ascii,
        has_PID_VAR (String c arg) = false ->
        ExpandPID_text pidStr (String c arg) = String c arg).
Proof.
  induction arg as [|c' arg [IH1 IH2]].
  - split; intros; reflexivity.
  - split; [apply IH2|]. intros c H.
    change (has_PID_VAR (String c (String c' arg)))
      with (((c =? "$")%char && (c' =? "$")%char) || has_PID_VAR (String c' arg))%bool
      in H.
    apply orb_false_elim in H as [Hpair Hrest].
    rewrite ExpandPID_text_pair, Hpair. f_equal. now apply IH2.
Qed.

Lemma ExpandPID_text_variable (pidStr before rest : string) :
  Forall (fun c => c <> "$"%char) (list_ascii_of_string before) ->
  ExpandPID_text pidStr (before ++ PID_VAR ++ rest)
  = (before ++ pidStr ++ ExpandPID_text pidStr rest)%string.
Proof.
  induction before as [|c before IH]; intros H; [reflexivity|].
  inversion H as [|? ? Hc Hrest]; subst.
  assert (Hpair : forall c', ((c =? "$")%char && (c' =? "$")%char)%bool = false).
  { intros c'. destruct (Ascii.eqb_spec c "$"%char); [contradiction|reflexivity]. }
  destruct before as [|c' before].
  - cbn [String.append PID_VAR]. rewrite ExpandPID_text_pair, Hpair.
    reflexivity.
  - cbn [String.append]. rewrite ExpandPID_text_pair, Hpair. f_equal.
    apply (IH Hrest).
Qed.

Example ExpandPID_text_adjacent :
  ExpandPID_text (pid_string 1234) "a$$$$b" = "a12341234b"
  /\ ExpandPID_text (pid_string 1234) "$$$$" = "12341234"
  /\ ExpandPID_text (pid_string 1234) "$$$" = "1234$"
  /\ ExpandPID_text (pid_string 1234) "plain" = "plain".
Proof. repeat split; vm_compute; reflexivity. Qed.

(** ** The exit code of a foreground child *)

Lemma exited_with_status (code : Z) :
  (0 <= code <= 255)%Z ->
  Wait.WIFSIGNALED (Wait.exited_with code) = false
  /\ Wait.WIFEXITED (Wait.exited_with code) = 1%Z
  /\ Wait.WEXITSTATUS (Wait.exited_with code) = code
  /\ (Wait.exited_with code =? 0)%Z = (code =? 0)%Z.
Proof.
  intros Hcode.
  assert (Hall : forallb (fun n =>
            let c := Z.of_nat n in
            negb (Wait.WIFSIGNALED (Wait.exited_with c))
            && (Wait.WIFEXITED (Wait.exited_with c) =? 1)%Z
            && (Wait.WEXITSTATUS (Wait.exited_with c) =? c)%Z
            && Bool.eqb (Wait.exited_with c =? 0)%Z (c =? 0)%Z)
          (seq 0 256) = true) by (vm_compute; reflexivity).
  rewrite forallb_forall in Hall.
  specialize (Hall (Z.to_nat code)).
  rewrite Z2Nat.id in Hall by lia.
  specialize (Hall ltac:(apply in_seq; lia)). cbv zeta in Hall.
  repeat (apply andb_prop in Hall as [Hall ?]).
  repeat split.
  - now apply negb_true_iff.
  - now apply Z.eqb_eq.
  - now apply Z.eqb_eq.
  - now apply Bool.eqb_prop.
Qed.

(** Whatever the exit code of the foreground child, ExternalCommand leaves
    0 or 1 in childStatus, and that is what status prints. *)
Lemma foreground_exit_status_collapses (o : os) (pid code : Z)
    (command : cmdStruct) (s : shell) :
  (0 <= code <= 255)%Z ->
  isBackground command = false ->
  os_wait o pid = Wait.exited_with code ->
  exists (evs : list event) (s' : shell),
    ExternalCommand_parent o pid command s = (evs, Running s')
    /\ childStatus s' = (if (code =? 0)%Z then 0%Z else 1%Z)
    /\ fst (MyStatus s') =
       [ev_stdout (line ("exit status " ++ (if (code =? 0)%Z then "0" else "1")))].
Proof.
  intros Hcode Hfg Hwait.
  destruct (exited_with_status code Hcode) as (Hsig & Hex & _ & Hz).
  unfold ExternalCommand_parent. rewrite Hfg. cbn [negb].
  destruct (deliver_all (os_signals_at_wait o)
              (set_foregroundChild true (AddChildPid pid s))) as [s3 notices].
  cbn [childStatus set_foregroundChild RemoveChildPid set_childPids set_childStatus].
  rewrite Hwait, Hsig, Hz.
  destruct (code =? 0)%Z eqn:E; cbn [negb]; eexists; eexists;
    (split; [reflexivity|]); cbn [childStatus set_childStatus].
  - apply Z.eqb_eq in Hz. rewrite Hz. split; reflexivity.
  - rewrite Hex. split; reflexivity.
Qed.

(** ** A session *)

(** The shell with one background child, 4321, in its job table: the
    reaping of the child while the next prompt waits, and what status
    prints then; a foreground command that ends with exit( 3 ), and what
    status prints then; exit, after which nothing is read or written any
    more. *)
Example session :
  main_loop [with_signals_at_prompt [SIGCHLD]
               (with_zombies [(4321%Z, Wait.exited_with 1)] (calm_os ""));
             calm_os "status";
             with_wait (fun _ => Wait.exited_with 3) (calm_os "sh fail3");
             calm_os "status";
             calm_os "exit";
             calm_os "status"]
            (AddChildPid 4321 initial_shell)
  = Some ([ev_stdout ": "; ev_waitpid (-1)%Z Wait.WNOHANG;
           ev_stdout "background pid 4321 is done: ";
           ev_stdout (line "exit value 256");
           ev_waitpid (-1)%Z Wait.WNOHANG;
           ev_stdout ": "; ev_stdout (line "exit status 256");
           ev_stdout ": "; ev_fork 4321%Z; ev_waitpid 4321%Z 0%Z;
           ev_stdout ": "; ev_stdout (line "exit status 1");
           ev_stdout ": "; ev_exit EXIT_SUCCESS],
          Exited EXIT_SUCCESS).
Proof. vm_compute. reflexivity. Qed.

(** A line with a word of one character, here the background operator:
    ExpandPID has no defined result for it, and so neither has the pass.
    When calloc returns NULL for the second token, the pass ends the shell
    with the message of ExpandPID. *)
Example pass_without_result :
  main [calm_os "sleep 10 &"] = None
  /\ main_pass (mkOs 1234 (line "sleep 10") [] 4321 [] (fun _ => 0%Z) []
                     (fun _ _ => None) (fun _ => true) (fun _ => true)
                     (fun _ => None) (fun i => negb (i =? 1)%nat))
               initial_shell
     = Some ([ev_stdout ": ";
              ev_stderr (line "Failed to allocate space for arg 10");
              ev_exit EXIT_FAILURE],
             Exited EXIT_FAILURE).
Proof. split; vm_compute; reflexivity. Qed.

(** A line of 513 words: the last one is never read, and the 512 before it
    all become arguments. *)
Example ParseCommand_513_tokens :
  let long := line (String.concat " " (repeat "ab" MAX_ARGS ++ ["yz"])) in
  List.length (tokens long) = 513%nat
  /\ ParseCommand (fun _ => true) initial_shell 1234 long
     = Done (EXIT_SUCCESS, mkCmd (repeat "ab" MAX_ARGS) None None false false false).
Proof. split; vm_compute; reflexivity. Qed.

(** * Further properties *)

(** ** ExpandPID *)

(** X1: whatever string ExpandPID returns is the token with its variables
    expanded, and it returns that string for every token whose expansion is
    at most ( n / 2 ) * pidLen characters long. *)
Theorem ExpandPID_sound_and_complete_in_block (pid : Z) (arg : string) :
  nul_free (list_ascii_of_string arg) ->
  (forall text : string,
      ExpandPID pid arg = Some text ->
      text = ExpandPID_text (pid_string pid) arg)
  /\ ((String.length (ExpandPID_text (pid_string pid) arg)
       <= String.length arg / 2 * String.length (pid_string pid))%nat ->
      ExpandPID pid arg = Some (ExpandPID_text (pid_string pid) arg)).
Proof.
  intros Harg. split.
  - intros text H. now apply ExpandPID_returns_text.
  - intros Hfit. rewrite ExpandPID_block_bound by assumption.
    apply Nat.leb_le in Hfit. now rewrite Hfit.
Qed.

Lemma ExpandPID_sound_and_complete_in_block_witness :
  ExpandPID 1234 "out$$.txt" = Some "out1234.txt".
Proof.
  apply (ExpandPID_sound_and_complete_in_block 1234 "out$$.txt").
  - repeat constructor; discriminate.
  - vm_compute. repeat constructor.
Defined.

(** X2: when the pid has at least three digits, a token of at least two
    characters that holds no variable comes back unchanged. *)
Theorem ExpandPID_plain_token_unchanged (pid : Z) (arg : string) :
  nul_free (list_ascii_of_string arg) ->
  has_PID_VAR arg = false ->
  (2 <= String.length arg)%nat ->
  (3 <= String.length (pid_string pid))%nat ->
  ExpandPID pid arg = Some arg.
Proof.
  intros Harg Hvar Hlen Hpid.
  pose proof (proj1 (ExpandPID_text_unchanged (pid_string pid) arg) Hvar) as Htext.
  rewrite ExpandPID_block_bound by assumption. rewrite Htext.
  replace (String.length arg <=? String.length arg / 2 * String.length (pid_string pid))%nat
    with true; [reflexivity|].
  symmetry. apply Nat.leb_le.
  pose proof (Nat.div_mod_eq (String.length arg) 2) as Hdiv.
  pose proof (Nat.mod_upper_bound (String.length arg) 2 ltac:(lia)) as Hmod.
  nia.
Qed.

Lemma ExpandPID_plain_token_unchanged_witness :
  ExpandPID 1234 "status" = Some "status".
Proof.
  apply (ExpandPID_plain_token_unchanged 1234 "status").
  - repeat constructor; discriminate.
  - reflexivity.
  - simpl; lia.
  - vm_compute. repeat constructor.
Defined.

(** X3: the expansion leaves a token with no variable as it is, and in a
    token that has one after a prefix free of dollar signs it keeps the
    prefix, puts the digits of the pid for the variable and goes on
    expanding behind it - so adjacent variables give the pid twice. *)
Theorem ExpandPID_text_replaces_each_variable (pidStr : string) :
  (forall arg : string,
      has_PID_VAR arg = false -> ExpandPID_text pidStr arg = arg)
  /\ (forall before rest : string,
        Forall (fun c => c <> "$"%char) (list_ascii_of_string before) ->
        ExpandPID_text pidStr (before ++ PID_VAR ++ rest)
        = (before ++ pidStr ++ ExpandPID_text pidStr rest)%string)
  /\ (forall before after : string,
        Forall (fun c => c <> "$"%char) (list_ascii_of_string before) ->
        has_PID_VAR after = false ->
        ExpandPID_text pidStr (before ++ PID_VAR ++ PID_VAR ++ after)
        = (before ++ pidStr ++ pidStr ++ after)%string).
Proof.
  split; [|split].
  - intros arg H. now apply (proj1 (ExpandPID_text_unchanged pidStr arg)).
  - apply ExpandPID_text_variable.
  - intros before after Hb Ha.
    rewrite ExpandPID_text_variable by assumption.
    pose proof (ExpandPID_text_variable pidStr EmptyString after
                  ltac:(constructor)) as Hsecond.
    change (ExpandPID_text pidStr (PID_VAR ++ after)
            = (pidStr ++ ExpandPID_text pidStr after)%string) in Hsecond.
    rewrite Hsecond.
    now rewrite (proj1 (ExpandPID_text_unchanged pidStr after) Ha).
Qed.

(** ** strtok and the tokens of a line *)

Lemma take_token_chars (delim s : string) :
  Forall (fun c => is_delim delim c = false)
         (list_ascii_of_string (fst (take_token delim s))).
Proof.
  induction s as [|c s IH]; simpl; [constructor|].
  destruct (is_delim delim c) eqn:E; simpl; [constructor|].
  destruct (take_token delim s) as [tok rest]. simpl in *.
  constructor; assumption.
Qed.

Lemma skip_delims_head (delim s : string) (c : ascii) (rest : string) :
  skip_delims delim s = String c rest -> is_delim delim c = false.
Proof.
  induction s as [|a s IH]; simpl; [discriminate|].
  destruct (is_delim delim a) eqn:E; [assumption|].
  intros H. inversion H; subst. assumption.
Qed.

Lemma strtok_word (s tok rest : string) :
  strtok s blank_newline = Some (tok, rest) -> is_word tok.
Proof.
  unfold strtok. destruct (skip_delims blank_newline s) as [|c s'] eqn:E;
    [discriminate|].
  intros H.
  assert (H1 : take_token blank_newline (String c s') = (tok, rest))
    by congruence.
  clear H.
  pose proof (take_token_chars blank_newline (String c s')) as Hchars.
  rewrite H1 in Hchars. split; [|exact Hchars].
  apply skip_delims_head in E. cbn [take_token] in H1. rewrite E in H1.
  destruct (take_token blank_newline s'). inversion H1. discriminate.
Qed.

Lemma tokens_upto_words (calls : nat) :
  forall buf : string, Forall is_word (tokens_upto calls buf).
Proof.
  induction calls as [|calls IH]; intros buf; [constructor|].
  simpl. destruct (strtok buf blank_newline) as [[tok rest]|] eqn:E;
    [|constructor].
  constructor; [now apply strtok_word in E|apply IH].
Qed.

(** X4: every token ParseCommand gets from strtok is a word: it is not
    empty and holds neither a blank nor a newline, however the line is
    spaced. *)
Theorem tokens_are_words (buf : string) : Forall is_word (tokens buf).
Proof. apply tokens_upto_words. Qed.

Lemma string_append_assoc (a b c : string) :
  ((a ++ b) ++ c = a ++ (b ++ c))%string.
Proof. induction a as [|x a IH]; simpl; [reflexivity|now rewrite IH]. Qed.

Lemma take_token_word (w tail : string) (d : ascii) :
  Forall (fun c => is_delim blank_newline c = false) (list_ascii_of_string w) ->
  is_delim blank_newline d = true ->
  take_token blank_newline (w ++ String d tail) = (w, tail).
Proof.
  intros Hw Hd. induction w as [|c w IH]; simpl.
  - now rewrite Hd.
  - inversion Hw as [|? ? Hc Hw']; subst. rewrite Hc, (IH Hw'). reflexivity.
Qed.

Lemma tokens_word_first (w tail : string) (d : ascii) :
  is_word w ->
  is_delim blank_newline d = true ->
  tokens (w ++ String d tail) = w :: tokens tail.
Proof.
  intros [Hne Hw] Hd. rewrite tokens_step. unfold strtok.
  destruct w as [|c w]; [contradiction|].
  inversion Hw as [|? ? Hc Hw']; subst.
  cbn [String.append skip_delims]. rewrite Hc.
  change (String c (w ++ String d tail)) with (String c w ++ String d tail)%string.
  now rewrite take_token_word.
Qed.

(** X5: splitting undoes joining: the tokens of a line made of words with
    one blank between them and the newline at its end are those words, in
    their order. *)
Theorem tokens_of_joined_words (words : list string) :
  Forall is_word words ->
  tokens (line (String.concat " " words)) = words.
Proof.
  induction 1 as [|w words Hw Hwords IH]; [vm_compute; reflexivity|].
  destruct words as [|w' words].
  - unfold line, CLib.nl. cbn [String.concat].
    rewrite tokens_word_first by (assumption || reflexivity). reflexivity.
  - change (String.concat " " (w :: w' :: words))
      with (w ++ " " ++ String.concat " " (w' :: words))%string.
    unfold line in *. rewrite string_append_assoc.
    change ((" " ++ String.concat " " (w' :: words)) ++ CLib.nl)%string
      with (String " " (String.concat " " (w' :: words) ++ CLib.nl)).
    rewrite tokens_word_first by (assumption || reflexivity).
    now rewrite IH.
Qed.

Lemma tokens_of_joined_words_witness :
  tokens (line (String.concat " " ["ls"; "-l"; "$$"; ">"; "out"; "&"]))
  = ["ls"; "-l"; "$$"; ">"; "out"; "&"].
Proof.
  apply (tokens_of_joined_words ["ls"; "-l"; "$$"; ">"; "out"; "&"]).
  repeat constructor; try discriminate.
Defined.

Lemma skip_only_delims (buf : string) :
  only_delims buf -> skip_delims blank_newline buf = EmptyString.
Proof.
  induction buf as [|c buf IH]; intros H; [reflexivity|].
  inversion H as [|? ? Hc Hrest]; subst. simpl. rewrite Hc. now apply IH.
Qed.

(** X6: a line of blanks and newlines only has no token; ParseCommand calls
    ExpandPID on nothing and hands back the zeroed struct, and RunCommand
    does nothing with it: no event, and the shell state as it was. *)
Theorem blank_line_is_no_command (calloc_ok : nat -> bool) (s : shell) (pid : Z)
    (buf : string) (o : os) (s' : shell) :
  only_delims buf ->
  tokens buf = []
  /\ ParseCommand calloc_ok s pid buf = Done (EXIT_SUCCESS, zeroed_cmd)
  /\ (forall (ret : Z) (c : cmdStruct),
        ParseCommand calloc_ok s pid buf = Done (ret, c) ->
        RunCommand o c s' = ([], Running s')).
Proof.
  intros H.
  assert (Htok : tokens buf = []).
  { rewrite tokens_step. unfold strtok. now rewrite skip_only_delims. }
  assert (Hparse : ParseCommand calloc_ok s pid buf = Done (EXIT_SUCCESS, zeroed_cmd)).
  { rewrite ParseCommand_expand. unfold consumed_tokens. rewrite Htok.
    reflexivity. }
  repeat split; [assumption|assumption|].
  intros ret c Hc. rewrite Hparse in Hc. inversion Hc; subst. reflexivity.
Qed.

Lemma blank_line_is_no_command_witness :
  ParseCommand (fun _ => true) initial_shell 1234 (line "   ")
  = Done (EXIT_SUCCESS, zeroed_cmd)
  /\ RunCommand (calm_os "   ") zeroed_cmd initial_shell
     = ([], Running initial_shell).
Proof.
  assert (H : only_delims (line "   ")) by (repeat constructor).
  destruct (blank_line_is_no_command (fun _ => true) initial_shell 1234
              (line "   ") (calm_os "   ") initial_shell H) as (_ & H1 & H2).
  split; [exact H1|]. exact (H2 EXIT_SUCCESS zeroed_cmd H1).
Defined.

(** ** What ParseCommand stores *)

Lemma Forall_removelast {A : Type} (P : A -> Prop) (l : list A) :
  Forall P l -> Forall P (removelast l).
Proof.
  induction 1 as [|a l Ha Hl IH]; [constructor|].
  destruct l as [|b l]; [constructor|].
  change (removelast (a :: b :: l)) with (a :: removelast (b :: l)).
  now constructor.
Qed.

(** Whenever ParseCommand returns, ExpandPID has returned a string for each
    of the tokens read, and the struct is the one built from them. *)
Lemma ParseCommand_done (calloc_ok : nat -> bool) (s : shell) (pid : Z)
    (buf : string) (ret : Z) (c : cmdStruct) :
  ParseCommand calloc_ok s pid buf = Done (ret, c) ->
  exists returned : list string,
    Forall2 (fun tok text => ExpandPID pid tok = Some text)
            (consumed_tokens buf) returned
    /\ ret = EXIT_SUCCESS
    /\ c = ParseCommand_stored (ignoreBackground s) returned.
Proof.
  rewrite ParseCommand_expand.
  destruct (expand_all calloc_ok 0 pid (consumed_tokens buf)) as [returned| |] eqn:E;
    try discriminate.
  intros H. inversion H; subst. exists returned.
  split; [now apply (expand_all_done calloc_ok pid _ 0)|]. split; reflexivity.
Qed.

Lemma ParseCommand_stored_args (ig : bool) (expanded : list string) :
  args (ParseCommand_stored ig expanded)
  = without_background (argument_tokens expanded).
Proof.
  unfold ParseCommand_stored.
  set (c := cmd (fold_left ParseCommand_store expanded parse_start)).
  assert (Hargs : args c = argument_tokens expanded).
  { unfold c. rewrite ParseCommand_loop_args by (left; reflexivity).
    reflexivity. }
  unfold ParseCommand_background, without_background.
  rewrite Hargs.
  destruct (rev (argument_tokens expanded)) as [|tok others]; [exact Hargs|].
  rewrite (strncmp_operator tok BACKGROUND "&"%char) by reflexivity.
  destruct (tok =? BACKGROUND)%string; [|exact Hargs].
  reflexivity.
Qed.

(** X7: the arguments ParseCommand stores are, of the strings ExpandPID
    returned for the tokens it read and in their order, those that are
    neither a redirection operator nor the string after one, less one
    background operator at the very end; this does not depend on the
    mode.  Whenever ParseCommand returns, ExpandPID has returned such a
    string for each of the first MAX_ARGS tokens of the line. *)
Theorem ParseCommand_args (calloc_ok : nat -> bool) (s : shell) (pid : Z)
    (buf : string) (ig : bool) (expanded : list string) :
  args (ParseCommand_stored ig expanded)
  = without_background (argument_tokens expanded)
  /\ (forall (ret : Z) (c : cmdStruct),
        ParseCommand calloc_ok s pid buf = Done (ret, c) ->
        exists returned : list string,
          Forall2 (fun tok text => ExpandPID pid tok = Some text)
                  (consumed_tokens buf) returned
          /\ args c = without_background (argument_tokens returned)).
Proof.
  split; [apply ParseCommand_stored_args|].
  intros ret c H.
  destruct (ParseCommand_done calloc_ok s pid buf ret c H)
    as (returned & Hret & _ & ->).
  exists returned. split; [assumption|apply ParseCommand_stored_args].
Qed.

Lemma ParseCommand_args_witness :
  args (ParseCommand_stored true ["ls"; "-la"; "<"; "in"; "&"]) = ["ls"; "-la"]
  /\ ParseCommand (fun _ => true) initial_shell 1234 (line "echo pid$$")
     = Done (EXIT_SUCCESS,
             mkCmd ["echo"; "pid1234"] None None false false false)
  /\ exists returned : list string,
       Forall2 (fun tok text => ExpandPID 1234 tok = Some text)
               ["echo"; "pid$$"] returned
       /\ ["echo"; "pid1234"] = without_background (argument_tokens returned).
Proof.
  destruct (ParseCommand_args (fun _ => true) initial_shell 1234
              (line "echo pid$$") true ["ls"; "-la"; "<"; "in"; "&"])
    as [Hstored Hparsed].
  split; [exact Hstored|]. split; [vm_compute; reflexivity|].
  apply (Hparsed EXIT_SUCCESS (mkCmd ["echo"; "pid1234"] None None false false false)).
  vm_compute. reflexivity.
Defined.

Lemma ParseCommand_store_consistent (st : parse_state) (a : string) :
  redirection_consistent st ->
  redirection_consistent (ParseCommand_store st a).
Proof.
  intros (Hfi & Hfo & Hi & Ho & Hargs). unfold ParseCommand_store.
  destruct (inputFlag st) eqn:Ei.
  { repeat split; cbn; auto; discriminate. }
  destruct (outputFlag st) eqn:Eo.
  { repeat split; cbn; auto; discriminate. }
  destruct (CLib.strncmp a INPUT 2 =? 0)%Z eqn:E1.
  { repeat split; cbn; auto; discriminate. }
  destruct (CLib.strncmp a OUTPUT 2 =? 0)%Z eqn:E2.
  { repeat split; cbn; auto; discriminate. }
  repeat split; cbn; auto; try discriminate.
  apply Forall_app. split; [assumption|]. constructor; [|constructor].
  apply Z.eqb_neq in E1, E2. split; intros Heq.
  - apply E1. apply strncmp_exact; [cbv; lia|assumption].
  - apply E2. apply strncmp_exact; [cbv; lia|assumption].
Qed.

Lemma ParseCommand_loop_consistent (toks : list string) :
  forall st : parse_state,
    redirection_consistent st ->
    redirection_consistent (fold_left ParseCommand_store toks st).
Proof.
  induction toks as [|tok toks IH]; intros st H; [assumption|].
  cbn [fold_left]. apply IH. now apply ParseCommand_store_consistent.
Qed.

Lemma ParseCommand_stored_paths_have_flags (ig : bool) (expanded : list string) :
  let c := ParseCommand_stored ig expanded in
  (input c <> None -> isRedirectInput c = true)
  /\ (output c <> None -> isRedirectOutput c = true)
  /\ Forall (fun a => a <> INPUT /\ a <> OUTPUT) (args c).
Proof.
  cbv zeta. unfold ParseCommand_stored.
  pose proof (ParseCommand_loop_consistent expanded parse_start) as H.
  destruct H as (_ & _ & Hi & Ho & Hargs).
  { repeat split; cbn; try discriminate; try (intros H; now contradiction H).
    constructor. }
  set (c := cmd (fold_left ParseCommand_store expanded parse_start)) in *.
  destruct (ParseCommand_background_keeps_redirection ig c)
    as (E1 & E2 & E3 & E4).
  rewrite E1, E2, E3, E4. repeat split; try assumption.
  unfold ParseCommand_background.
  destruct (rev (args c)) as [|lastArg others]; [assumption|].
  destruct (CLib.strncmp lastArg BACKGROUND 2 =? 0)%Z; [|assumption].
  cbn [args]. now apply Forall_removelast.
Qed.

(** X8: in every command ParseCommand returns - the struct built from
    whatever strings ExpandPID returned - a stored input or output path
    comes with the flag of its direction set, and no stored argument is a
    redirection operator. *)
Theorem ParseCommand_paths_have_flags (calloc_ok : nat -> bool) (s : shell)
    (pid : Z) (buf : string) (ig : bool) (expanded : list string) :
  let holds := fun c : cmdStruct =>
    (input c <> None -> isRedirectInput c = true)
    /\ (output c <> None -> isRedirectOutput c = true)
    /\ Forall (fun a => a <> INPUT /\ a <> OUTPUT) (args c) in
  holds (ParseCommand_stored ig expanded)
  /\ (forall (ret : Z) (c : cmdStruct),
        ParseCommand calloc_ok s pid buf = Done (ret, c) -> holds c).
Proof.
  cbv zeta. split; [apply ParseCommand_stored_paths_have_flags|].
  intros ret c H.
  destruct (ParseCommand_done calloc_ok s pid buf ret c H) as (returned & _ & _ & ->).
  apply ParseCommand_stored_paths_have_flags.
Qed.

(** X10: foreground-only mode changes nothing of a parsed command but its
    isBackground: from the same strings the arguments, the paths and the
    redirection flags are the same in either mode - the background operator
    at the end is taken off the arguments in both - and in foreground-only
    mode isBackground is false for every line.  ParseCommand goes the same
    way in either mode: it returns in both, with structs built from the
    same strings, or in neither. *)
Theorem ParseCommand_mode_changes_isBackground_only (calloc_ok : nat -> bool)
    (s1 s2 : shell) (pid : Z) (buf : string) (expanded : list string) :
  (let c1 := ParseCommand_stored (ignoreBackground s1) expanded in
   let c2 := ParseCommand_stored (ignoreBackground s2) expanded in
   args c1 = args c2 /\ input c1 = input c2 /\ output c1 = output c2
   /\ isRedirectInput c1 = isRedirectInput c2
   /\ isRedirectOutput c1 = isRedirectOutput c2
   /\ (ignoreBackground s1 = ignoreBackground s2 -> c1 = c2)
   /\ (ignoreBackground s2 = true -> isBackground c2 = false))
  /\ match ParseCommand calloc_ok s1 pid buf, ParseCommand calloc_ok s2 pid buf with
     | Done (ret1, c1), Done (ret2, c2) =>
         ret1 = ret2
         /\ exists returned : list string,
              c1 = ParseCommand_stored (ignoreBackground s1) returned
              /\ c2 = ParseCommand_stored (ignoreBackground s2) returned
     | NoMemory arg1, NoMemory arg2 => arg1 = arg2
     | Undefined, Undefined => True
     | _, _ => False
     end.
Proof.
  split.
  - cbv zeta. unfold ParseCommand_stored.
    set (c := cmd (fold_left ParseCommand_store expanded parse_start)).
    assert (Hc : isBackground c = false)
      by (unfold c; now rewrite ParseCommand_loop_isBackground).
    unfold ParseCommand_background.
    destruct (rev (args c)) as [|lastArg others];
      [repeat split; auto|].
    destruct (CLib.strncmp lastArg BACKGROUND 2 =? 0)%Z;
      [|repeat split; auto].
    repeat split; cbn; auto.
    + intros ->. reflexivity.
    + intros ->. reflexivity.
  - rewrite !ParseCommand_expand.
    destruct (expand_all calloc_ok 0 pid (consumed_tokens buf)) as [returned| |];
      [|reflexivity|exact I].
    split; [reflexivity|]. now exists returned.
Qed.

Lemma ParseCommand_loop_plain_words (words : list string) :
  forall st : parse_state,
    Forall (fun w => is_operator w = false) words ->
    inputFlag st = false -> outputFlag st = false ->
    fold_left ParseCommand_store words st =
    mkParse (mkCmd (args (cmd st) ++ words)
                   (input (cmd st)) (output (cmd st))
                   (isRedirectInput (cmd st)) (isRedirectOutput (cmd st))
                   (isBackground (cmd st)))
            false false.
Proof.
  induction words as [|w words IH]; intros st Hw Hi Ho.
  - destruct st as [[a i o ri ro bg] fi fo]; simpl in *; subst.
    now rewrite app_nil_r.
  - inversion Hw as [|w' ws' Hop Hrest]; subst.
    destruct st as [c fi fo]. cbn [inputFlag outputFlag] in Hi, Ho. subst fi fo.
    cbn [fold_left]. rewrite ParseCommand_store_plain by assumption.
    rewrite IH by (assumption || reflexivity).
    cbn [cmd args input output isRedirectInput isRedirectOutput isBackground].
    now rewrite <- app_assoc.
Qed.

Lemma ParseCommand_store_BACKGROUND (c : cmdStruct) :
  ParseCommand_store (mkParse c false false) BACKGROUND =
  mkParse (mkCmd (args c ++ [BACKGROUND]) (input c) (output c)
                 (isRedirectInput c) (isRedirectOutput c) (isBackground c))
          false false.
Proof. reflexivity. Qed.

Lemma ParseCommand_background_absent (ig : bool) (words : list string)
    (i o : option string) (ri ro bg : bool) :
  hd_error (rev words) <> Some BACKGROUND ->
  ParseCommand_background ig (mkCmd words i o ri ro bg)
  = mkCmd words i o ri ro bg.
Proof.
  intros H. unfold ParseCommand_background. cbn [args].
  destruct (rev words) as [|tok others]; [reflexivity|].
  rewrite (strncmp_operator tok BACKGROUND "&"%char) by reflexivity.
  destruct (String.eqb_spec tok BACKGROUND) as [->|Hne]; [|reflexivity].
  now contradiction H.
Qed.

Lemma ParseCommand_background_present (ig : bool) (a : list string)
    (i o : option string) (ri ro bg : bool) :
  ParseCommand_background ig (mkCmd (a ++ [BACKGROUND]) i o ri ro bg)
  = mkCmd a i o ri ro (negb ig).
Proof.
  unfold ParseCommand_background. cbn [args].
  rewrite rev_unit, removelast_last.
  change (CLib.strncmp BACKGROUND BACKGROUND 2 =? 0)%Z with true.
  now destruct ig.
Qed.

(** X9: when the strings ExpandPID returned stand in the usual order -
    plain words, then < and a string, then > and a string, then perhaps the
    background operator - the struct holds the words as arguments, the two
    strings as input and output path whatever they are, both redirection
    flags set, and isBackground set exactly when the operator is there and
    foreground-only mode is off. *)
Theorem ParseCommand_usual_order (ig : bool) (words : list string)
    (inp out : string) (background : bool) :
  Forall (fun w => is_operator w = false) words ->
  hd_error (rev words) <> Some BACKGROUND ->
  ParseCommand_stored ig
    (words ++ [INPUT; inp; OUTPUT; out]
           ++ (if background then [BACKGROUND] else []))
  = mkCmd words (Some inp) (Some out) true true (background && negb ig).
Proof.
  intros Hplain Hlast. unfold ParseCommand_stored.
  rewrite fold_left_app.
  rewrite (ParseCommand_loop_plain_words words parse_start)
    by (assumption || reflexivity).
  cbn [parse_start cmd zeroed_cmd args input output isRedirectInput
       isRedirectOutput isBackground app].
  cbn [fold_left].
  rewrite ParseCommand_store_INPUT, ParseCommand_store_input_path,
    ParseCommand_store_OUTPUT, ParseCommand_store_output_path.
  cbn [args input output isRedirectInput isRedirectOutput isBackground].
  destruct background; cbn [fold_left andb].
  - rewrite ParseCommand_store_BACKGROUND.
    cbn [cmd args input output isRedirectInput isRedirectOutput isBackground].
    apply ParseCommand_background_present.
  - cbn [cmd]. now apply ParseCommand_background_absent.
Qed.

Lemma ParseCommand_usual_order_witness :
  ParseCommand_stored false ["sort"; "-r"; "<"; "names1234"; ">"; "&"; "&"]
  = mkCmd ["sort"; "-r"] (Some "names1234") (Some "&") true true true.
Proof.
  apply (ParseCommand_usual_order false ["sort"; "-r"] "names1234" "&" true).
  - repeat constructor.
  - discriminate.
Defined.

(** ** The job table *)

Lemma RemoveChildPid_slots_absent (slots : list Z) (pid : Z) :
  ~ In pid slots -> RemoveChildPid_slots slots pid = slots.
Proof.
  induction slots as [|slot rest IH]; intros H; [reflexivity|].
  simpl. destruct (Z.eqb_spec slot pid) as [->|Hne].
  - exfalso. apply H. now left.
  - rewrite IH; [reflexivity|]. intros Hin. apply H. now right.
Qed.

Lemma RemoveChildPid_slots_added (slots : list Z) (pid : Z) :
  ~ In pid slots ->
  RemoveChildPid_slots (AddChildPid_slots slots pid) pid = slots.
Proof.
  induction slots as [|slot rest IH]; intros H; [reflexivity|].
  simpl. destruct (Z.eqb_spec slot 0) as [->|Hnz].
  - simpl. now rewrite Z.eqb_refl.
  - simpl. destruct (Z.eqb_spec slot pid) as [->|Hne].
    + exfalso. apply H. now left.
    + rewrite IH; [reflexivity|]. intros Hin. apply H. now right.
Qed.

(** X11: registering a pid that is not in the job table and removing it
    again leaves the table exactly as it was - also when the table was full
    and the pid was never stored - and removing a pid that is not there
    changes nothing. *)
Theorem job_table_add_then_remove (pid : Z) (s : shell) :
  ~ In pid (childPids s) ->
  RemoveChildPid pid (AddChildPid pid s) = s
  /\ RemoveChildPid pid s = s.
Proof.
  intros H. destruct s as [slots st f1 f2 f3 f4 f5].
  unfold RemoveChildPid, AddChildPid, set_childPids. cbn in *.
  now rewrite RemoveChildPid_slots_added, RemoveChildPid_slots_absent.
Qed.

Lemma job_table_add_then_remove_witness :
  RemoveChildPid 4321 (AddChildPid 4321 (AddChildPid 77 initial_shell))
  = AddChildPid 77 initial_shell.
Proof.
  apply (job_table_add_then_remove 4321 (AddChildPid 77 initial_shell)).
  vm_compute. intros H.
  repeat (destruct H as [H|H]; [discriminate|]). exact H.
Defined.

Lemma AddChildPid_slots_length (slots : list Z) (pid : Z) :
  List.length (AddChildPid_slots slots pid) = List.length slots.
Proof.
  induction slots as [|slot rest IH]; [reflexivity|].
  simpl. destruct (slot =? 0)%Z; simpl; [reflexivity|now rewrite IH].
Qed.

Lemma RemoveChildPid_slots_length (slots : list Z) (pid : Z) :
  List.length (RemoveChildPid_slots slots pid) = List.length slots.
Proof.
  induction slots as [|slot rest IH]; [reflexivity|].
  simpl. destruct (slot =? pid)%Z; simpl; [reflexivity|now rewrite IH].
Qed.

(** X12: AddChildPid keeps the size of the job table and every pid that is
    registered in it; it stores the new pid when a slot is free, and when
    none is the table stays as it is: the child is not tracked, and nothing
    reports it. *)
Theorem AddChildPid_needs_a_free_slot (pid : Z) (s : shell) :
  List.length (childPids (AddChildPid pid s)) = List.length (childPids s)
  /\ (In 0%Z (childPids s) -> In pid (childPids (AddChildPid pid s)))
  /\ (~ In 0%Z (childPids s) -> AddChildPid pid s = s)
  /\ (forall q : Z,
        In q (childPids s) -> q <> 0%Z -> In q (childPids (AddChildPid pid s))).
Proof.
  destruct s as [slots st f1 f2 f3 f4 f5].
  unfold AddChildPid, set_childPids. cbn.
  split; [apply AddChildPid_slots_length|]. split; [|split].
  - induction slots as [|slot rest IH]; intros H; [contradiction|].
    simpl. destruct (Z.eqb_spec slot 0) as [->|Hnz]; [now left|].
    right. apply IH. destruct H as [H|H]; [contradiction|assumption].
  - intros H. f_equal.
    induction slots as [|slot rest IH]; [reflexivity|].
    simpl. destruct (Z.eqb_spec slot 0) as [->|Hnz].
    + exfalso. apply H. now left.
    + rewrite IH; [reflexivity|]. intros Hin. apply H. now right.
  - intros q. induction slots as [|slot rest IH]; intros Hin Hq; [contradiction|].
    simpl. destruct (Z.eqb_spec slot 0) as [->|Hnz].
    + destruct Hin as [Hin|Hin]; [congruence|now right].
    + destruct Hin as [Hin|Hin]; [now left|right; now apply IH].
Qed.

Lemma occurrences_removed (slots : list Z) (pid q : Z) :
  q <> 0%Z ->
  occurrences q (RemoveChildPid_slots slots pid) =
  if (q =? pid)%Z then Nat.pred (occurrences q slots) else occurrences q slots.
Proof.
  intros Hq. unfold occurrences.
  induction slots as [|slot rest IH].
  - simpl. now destruct (q =? pid)%Z.
  - cbn [RemoveChildPid_slots]. destruct (Z.eqb_spec slot pid) as [->|Hne].
    + cbn [count_occ]. destruct (Z.eqb_spec q pid) as [->|Hqp].
      * destruct (Z.eq_dec 0 pid) as [E|_]; [congruence|].
        destruct (Z.eq_dec pid pid) as [_|E]; [reflexivity|contradiction].
      * destruct (Z.eq_dec 0 q) as [E|_]; [congruence|].
        destruct (Z.eq_dec pid q) as [E|_]; [congruence|reflexivity].
    + cbn [count_occ]. rewrite IH.
      destruct (Z.eqb_spec q pid) as [->|Hqp].
      * destruct (Z.eq_dec slot pid) as [E|_]; [contradiction|reflexivity].
      * destruct (Z.eq_dec slot q); reflexivity.
Qed.

Lemma ReapZombies_loop_occurrences (zombies : list (Z * Z)) :
  forall s : shell,
    (forall q : Z, q <> 0%Z -> (occurrences q (childPids s) <= 1)%nat) ->
    forall q : Z,
      q <> 0%Z ->
      occurrences q (childPids (fst (ReapZombies_loop zombies s))) =
      if existsb (fun z => (fst z =? q)%Z) (reaped zombies)
      then 0%nat else occurrences q (childPids s).
Proof.
  induction zombies as [|[pid status] rest IH]; intros s Hs q Hq;
    [reflexivity|].
  cbn [ReapZombies_loop reaped].
  destruct (0 <? pid)%Z eqn:Epos; [|reflexivity].
  set (s2 := RemoveChildPid pid (set_childStatus status s)).
  assert (H2 : forall r : Z, r <> 0%Z ->
             occurrences r (childPids s2) =
             if (r =? pid)%Z then Nat.pred (occurrences r (childPids s))
             else occurrences r (childPids s))
    by (intros r Hr; apply (occurrences_removed (childPids s) pid r Hr)).
  assert (Hs2 : forall r : Z, r <> 0%Z -> (occurrences r (childPids s2) <= 1)%nat).
  { intros r Hr. rewrite (H2 r Hr). specialize (Hs r Hr).
    destruct (r =? pid)%Z; lia. }
  specialize (IH s2 Hs2 q Hq).
  destruct (ReapZombies_loop rest s2) as [s3 evs].
  cbn [fst existsb] in *. rewrite IH, (H2 q Hq).
  rewrite (Z.eqb_sym pid q). specialize (Hs q Hq).
  destruct (q =? pid)%Z; cbn [orb].
  - destruct (existsb _ (reaped rest)); lia.
  - reflexivity.
Qed.

Lemma ReapZombies_loop_reports (zombies : list (Z * Z)) :
  forall s : shell,
    List.length (filter is_done_report (snd (ReapZombies_loop zombies s)))
    = List.length (reaped zombies)
    /\ List.length (childPids (fst (ReapZombies_loop zombies s)))
       = List.length (childPids s).
Proof.
  induction zombies as [|[pid status] rest IH]; intros s; [split; reflexivity|].
  cbn [ReapZombies_loop reaped].
  destruct (0 <? pid)%Z; [|split; reflexivity].
  specialize (IH (RemoveChildPid pid (set_childStatus status s))).
  destruct (ReapZombies_loop rest (RemoveChildPid pid (set_childStatus status s)))
    as [s3 evs].
  cbn [fst snd] in *. destruct IH as [IH1 IH2]. split.
  - cbn [filter is_done_report].
    change (String.prefix "background pid "
              ("background pid " ++ CLib.fmt_d pid ++ " is done: ")) with
      (String.prefix "" (CLib.fmt_d pid ++ " is done: ")).
    replace (String.prefix "" (CLib.fmt_d pid ++ " is done: ")) with true
      by (now destruct (CLib.fmt_d pid ++ " is done: ")%string).
    destruct (Wait.WIFSIGNALED (childStatus (set_childStatus status s)));
      cbn; now rewrite IH1.
  - rewrite IH2. unfold RemoveChildPid. cbn.
    apply RemoveChildPid_slots_length.
Qed.

Lemma reaped_positive (zombies : list (Z * Z)) (pid status : Z) :
  In (pid, status) (reaped zombies) -> (0 < pid)%Z.
Proof.
  induction zombies as [|[p st] rest IH]; [intros []|].
  cbn [reaped]. destruct (Z.ltb_spec 0 p) as [Hp|Hp]; [|intros []].
  intros [H|H]; [inversion H; subst; assumption|now apply IH].
Qed.

Lemma reaped_existsb (zombies : list (Z * Z)) (q : Z) :
  existsb (fun z => (fst z =? q)%Z) (reaped zombies) = true
  <-> exists status : Z, In (q, status) (reaped zombies).
Proof.
  rewrite existsb_exists. split.
  - intros ([p st] & Hin & Heq). cbn in Heq. apply Z.eqb_eq in Heq. subst.
    now exists st.
  - intros (st & Hin). exists (q, st). split; [assumption|].
    cbn. apply Z.eqb_refl.
Qed.

(** X13: when no pid stands twice in the job table, ReapZombies leaves in it
    none of the children it reaped and all of the others, keeps the size of
    the table, clears childTerminated, and writes one "background pid ... is
    done" report for each child reaped. *)
Theorem ReapZombies_clears_reaped_children (o : os) (s : shell) :
  (forall q : Z, q <> 0%Z -> (occurrences q (childPids s) <= 1)%nat) ->
  (forall pid status : Z,
      In (pid, status) (reaped (os_zombies o)) ->
      ~ In pid (childPids (fst (ReapZombies o s))))
  /\ (forall q : Z,
        q <> 0%Z ->
        (forall status : Z, ~ In (q, status) (reaped (os_zombies o))) ->
        (In q (childPids (fst (ReapZombies o s))) <-> In q (childPids s)))
  /\ List.length (childPids (fst (ReapZombies o s))) = List.length (childPids s)
  /\ childTerminated (fst (ReapZombies o s)) = false
  /\ List.length (filter is_done_report (snd (ReapZombies o s)))
     = List.length (reaped (os_zombies o)).
Proof.
  intros Hs. unfold ReapZombies.
  pose proof (ReapZombies_loop_occurrences (os_zombies o) s Hs) as Hocc.
  pose proof (ReapZombies_loop_reports (os_zombies o) s) as [Hrep Hlen].
  destruct (ReapZombies_loop (os_zombies o) s) as [s1 evs].
  cbn [fst snd set_childTerminated childPids childTerminated] in *.
  split; [|split; [|repeat split; assumption]].
  - intros pid status Hin.
    assert (Hpid : pid <> 0%Z) by (apply reaped_positive in Hin; lia).
    apply (count_occ_not_In Z.eq_dec). fold (occurrences pid (childPids s1)).
    rewrite (Hocc pid Hpid).
    replace (existsb (fun z => (fst z =? pid)%Z) (reaped (os_zombies o)))
      with true; [reflexivity|].
    symmetry. apply reaped_existsb. now exists status.
  - intros q Hq Hnot.
    rewrite !(count_occ_In Z.eq_dec).
    fold (occurrences q (childPids s1)) (occurrences q (childPids s)).
    rewrite (Hocc q Hq).
    destruct (existsb (fun z => (fst z =? q)%Z) (reaped (os_zombies o))) eqn:E;
      [|reflexivity].
    apply reaped_existsb in E as [status Hin]. now apply Hnot in Hin.
Qed.

Lemma ReapZombies_clears_reaped_children_witness :
  ~ In 4321%Z
      (childPids (fst (ReapZombies
                         (with_zombies [(4321%Z, Wait.exited_with 0)] (calm_os ""))
                         (AddChildPid 4321 (AddChildPid 77 initial_shell)))))
  /\ In 77%Z
       (childPids (fst (ReapZombies
                          (with_zombies [(4321%Z, Wait.exited_with 0)] (calm_os ""))
                          (AddChildPid 4321 (AddChildPid 77 initial_shell))))).
Proof.
  assert (Hs : forall q : Z, q <> 0%Z ->
            (occurrences q (childPids (AddChildPid 4321 (AddChildPid 77 initial_shell)))
             <= 1)%nat).
  { intros q Hq. unfold occurrences. vm_compute childPids. cbn [count_occ].
    destruct (Z.eq_dec 77 q); destruct (Z.eq_dec 4321 q);
      destruct (Z.eq_dec 0 q); try congruence; lia. }
  destruct (ReapZombies_clears_reaped_children
              (with_zombies [(4321%Z, Wait.exited_with 0)] (calm_os ""))
              (AddChildPid 4321 (AddChildPid 77 initial_shell)) Hs)
    as (Hgone & Hkept & _).
  split.
  - apply (Hgone 4321%Z (Wait.exited_with 0)). now left.
  - apply Hkept; [discriminate| |vm_compute; tauto].
    intros status [H|[]]. inversion H.
Defined.

(** ** The parent after fork *)

Lemma deliver_all_frame (sigs : list signal) :
  forall s : shell,
    childPids (fst (deliver_all sigs s)) = childPids s
    /\ childStatus (fst (deliver_all sigs s)) = childStatus s
    /\ foregroundChild (fst (deliver_all sigs s)) = foregroundChild s
    /\ (foregroundChild s = true -> snd (deliver_all sigs s) = []).
Proof.
  induction sigs as [|sig rest IH]; intros s; [repeat split|].
  cbn [deliver_all].
  assert (Hd : childPids (fst (deliver sig s)) = childPids s
               /\ childStatus (fst (deliver sig s)) = childStatus s
               /\ foregroundChild (fst (deliver sig s)) = foregroundChild s
               /\ (foregroundChild s = true -> snd (deliver sig s) = [])).
  { destruct sig; cbn; try (repeat split; reflexivity).
    unfold HandleSIGTSTP.
    destruct (ignoreBackground s); cbn [negb];
      destruct (foregroundChild s) eqn:F; cbn; rewrite ?F;
      repeat split; cbn; try assumption; try reflexivity; discriminate. }
  destruct (deliver sig s) as [s1 ev1]. cbn [fst snd] in Hd.
  destruct Hd as (H1 & H2 & H3 & H4).
  specialize (IH s1). destruct (deliver_all rest s1) as [s2 ev2].
  cbn [fst snd] in *. destruct IH as (I1 & I2 & I3 & I4).
  repeat split; try congruence.
  intros F. rewrite (H4 F), I4; [reflexivity|congruence].
Qed.

(** X14: for a foreground command whose child's pid is not yet in the job
    table, the parent comes back from the blocking wait with the job table
    as it was and with foregroundChild cleared, whatever signals arrived
    during the wait; all it has written is the report of a death by signal,
    if the child died so - a mode change during the wait writes nothing
    then. *)
Theorem ExternalCommand_parent_foreground (o : os) (pid : Z)
    (command : cmdStruct) (s : shell) :
  isBackground command = false ->
  ~ In pid (childPids s) ->
  exists (evs : list event) (s' : shell),
    ExternalCommand_parent o pid command s = (evs, Running s')
    /\ childPids s' = childPids s
    /\ foregroundChild s' = false
    /\ (evs = [ev_waitpid pid 0%Z]
        \/ evs = [ev_waitpid pid 0%Z;
                  ev_stdout ("terminated by signal "
                             ++ CLib.fmt_d (Wait.WTERMSIG (os_wait o pid))
                             ++ CLib.nl)]).
Proof.
  intros Hfg Hnew. unfold ExternalCommand_parent. rewrite Hfg. cbn [negb].
  pose proof (deliver_all_frame (os_signals_at_wait o)
                (set_foregroundChild true (AddChildPid pid s)))
    as (D1 & D2 & D3 & D4).
  destruct (deliver_all (os_signals_at_wait o)
              (set_foregroundChild true (AddChildPid pid s))) as [s3 notices].
  cbn [fst snd] in *. rewrite (D4 eq_refl). cbn [app].
  assert (Htable : RemoveChildPid_slots (childPids s3) pid = childPids s).
  { rewrite D1. cbn. now apply RemoveChildPid_slots_added. }
  cbn [childStatus set_foregroundChild RemoveChildPid set_childPids set_childStatus].
  destruct (Wait.WIFSIGNALED (os_wait o pid)).
  - eexists; eexists. split; [reflexivity|]. cbn. repeat split; auto.
  - destruct (negb (os_wait o pid =? 0)%Z);
      eexists; eexists; (split; [reflexivity|]); cbn; repeat split; auto.
Qed.

Lemma ExternalCommand_parent_foreground_witness :
  exists (evs : list event) (s' : shell),
    ExternalCommand_parent (calm_os "ls") 4321
      (mkCmd ["ls"] None None false false false) initial_shell
    = (evs, Running s')
    /\ childPids s' = childPids initial_shell.
Proof.
  destruct (ExternalCommand_parent_foreground (calm_os "ls") 4321
              (mkCmd ["ls"] None None false false false) initial_shell)
    as (evs & s' & H1 & H2 & _).
  - reflexivity.
  - vm_compute. intros H.
    repeat (destruct H as [H|H]; [discriminate|]). exact H.
  - exists evs, s'. split; assumption.
Defined.

(** ** How a foreground child ended *)

Lemma killed_by_status (sig core : Z) :
  (1 <= sig <= 126)%Z -> core = 0%Z \/ core = 128%Z ->
  Wait.WIFSIGNALED (Z.lor (Wait.killed_by sig) core) = true
  /\ Wait.WTERMSIG (Z.lor (Wait.killed_by sig) core) = sig.
Proof.
  intros Hsig Hcore.
  assert (Hall : forallb (fun n =>
            let g := Z.of_nat n in
            forallb (fun c =>
                       Wait.WIFSIGNALED (Z.lor (Wait.killed_by g) c)
                       && (Wait.WTERMSIG (Z.lor (Wait.killed_by g) c) =? g)%Z)
                    [0%Z; 128%Z])
          (seq 1 126) = true) by (vm_compute; reflexivity).
  rewrite forallb_forall in Hall.
  specialize (Hall (Z.to_nat sig)). rewrite Z2Nat.id in Hall by lia.
  specialize (Hall ltac:(apply in_seq; lia)). cbv zeta in Hall.
  rewrite forallb_forall in Hall.
  specialize (Hall core ltac:(destruct Hcore as [->| ->]; cbn; auto)).
  apply andb_prop in Hall as [H1 H2]. split; [assumption|now apply Z.eqb_eq].
Qed.

(** X15: when a foreground child is killed by signal N, with or without a
    core dump, the parent writes "terminated by signal N" as soon as the
    wait returns, and nothing else. *)
Theorem foreground_signal_death_reported (o : os) (pid sig core : Z)
    (command : cmdStruct) (s : shell) :
  (1 <= sig <= 126)%Z ->
  core = 0%Z \/ core = 128%Z ->
  isBackground command = false ->
  os_wait o pid = Z.lor (Wait.killed_by sig) core ->
  exists s' : shell,
    ExternalCommand_parent o pid command s =
    ([ev_waitpid pid 0%Z;
      ev_stdout (line ("terminated by signal " ++ CLib.fmt_d sig))],
     Running s').
Proof.
  intros Hsig Hcore Hfg Hwait.
  destruct (killed_by_status sig core Hsig Hcore) as [Hif Hterm].
  unfold ExternalCommand_parent. rewrite Hfg. cbn [negb].
  pose proof (deliver_all_frame (os_signals_at_wait o)
                (set_foregroundChild true (AddChildPid pid s)))
    as (_ & _ & _ & D4).
  destruct (deliver_all (os_signals_at_wait o)
              (set_foregroundChild true (AddChildPid pid s))) as [s3 notices].
  cbn [fst snd] in *. rewrite (D4 eq_refl). cbn [app].
  cbn [childStatus set_foregroundChild RemoveChildPid set_childPids set_childStatus].
  rewrite Hwait, Hif, Hterm. eexists. unfold line.
  now rewrite string_append_assoc.
Qed.

Lemma foreground_signal_death_reported_witness :
  exists s' : shell,
    ExternalCommand_parent
      (with_wait (fun _ => Z.lor (Wait.killed_by 2) 0) (calm_os "sleep 100"))
      4321 (mkCmd ["sleep"; "100"] None None false false false) initial_shell
    = ([ev_waitpid 4321%Z 0%Z; ev_stdout (line "terminated by signal 2")],
       Running s').
Proof.
  apply (foreground_signal_death_reported
           (with_wait (fun _ => Z.lor (Wait.killed_by 2) 0) (calm_os "sleep 100"))
           4321 2 0 (mkCmd ["sleep"; "100"] None None false false false)
           initial_shell); try reflexivity; [lia|now left].
Defined.

(** X16: when a foreground child ends by exit, the parent writes nothing,
    and the status it keeps for the status built-in is 0 exactly when the
    exit code was 0. *)
Theorem foreground_exit_zero_iff_success (o : os) (pid code : Z)
    (command : cmdStruct) (s : shell) :
  (0 <= code <= 255)%Z ->
  isBackground command = false ->
  os_wait o pid = Wait.exited_with code ->
  exists s' : shell,
    ExternalCommand_parent o pid command s = ([ev_waitpid pid 0%Z], Running s')
    /\ (childStatus s' = 0%Z <-> code = 0%Z).
Proof.
  intros Hcode Hfg Hwait.
  destruct (exited_with_status code Hcode) as (Hsig & Hex & _ & Hz).
  unfold ExternalCommand_parent. rewrite Hfg. cbn [negb].
  pose proof (deliver_all_frame (os_signals_at_wait o)
                (set_foregroundChild true (AddChildPid pid s)))
    as (_ & _ & _ & D4).
  destruct (deliver_all (os_signals_at_wait o)
              (set_foregroundChild true (AddChildPid pid s))) as [s3 notices].
  cbn [fst snd] in *. rewrite (D4 eq_refl). cbn [app].
  cbn [childStatus set_foregroundChild RemoveChildPid set_childPids set_childStatus].
  rewrite Hwait, Hsig, Hz.
  destruct (Z.eqb_spec code 0) as [->|Hne]; cbn [negb]; eexists;
    (split; [reflexivity|]); cbn [childStatus set_childStatus].
  - split; reflexivity.
  - rewrite Hex. split; [discriminate|contradiction].
Qed.

Lemma foreground_exit_zero_iff_success_witness :
  exists s' : shell,
    ExternalCommand_parent (calm_os "true") 4321
      (mkCmd ["true"] None None false false false) initial_shell
    = ([ev_waitpid 4321%Z 0%Z], Running s')
    /\ (childStatus s' = 0%Z <-> 0%Z = 0%Z).
Proof.
  apply (foreground_exit_zero_iff_success (calm_os "true") 4321 0
           (mkCmd ["true"] None None false false false) initial_shell);
    [lia|reflexivity|reflexivity].
Defined.

(** ** The child after fork *)

Lemma leaves_shell_bind {A B : Type} (m : child_m A) (k : A -> child_m B) :
  leaves_shell m -> (forall a : A, leaves_shell (k a)) ->
  leaves_shell (c_bind m k).
Proof.
  intros Hm Hk st. unfold c_bind. specialize (Hm st).
  destruct (m st) as [a st'|e st']; [apply Hk|exact Hm].
Qed.

Lemma leaves_shell_ret {A : Type} (a : A) : leaves_shell (c_ret a).
Proof. intros st. exact I. Qed.

Lemma leaves_shell_emit (ev : event) : leaves_shell (c_emit ev).
Proof. intros st. exact I. Qed.

Lemma leaves_shell_exit {A : Type} (status : Z) : leaves_shell (@c_exit A status).
Proof. intros st. exact I. Qed.

Lemma leaves_shell_dup2 (oldfd newfd : Z) : leaves_shell (sys_dup2 oldfd newfd).
Proof. intros st. unfold sys_dup2. now destruct (fd_lookup (c_fds st) oldfd). Qed.

Lemma leaves_shell_close (fd : Z) : leaves_shell (sys_close fd).
Proof. intros st. exact I. Qed.

Lemma leaves_shell_execvp (o : os) (file : option string) (argv : list string) :
  leaves_shell (sys_execvp o file argv).
Proof.
  intros st. unfold sys_execvp. destruct file as [path|]; [|exact I].
  now destruct (os_execvp o path).
Qed.

Lemma leaves_shell_open (o : os) (fileName : option string) (ro wo : bool) :
  leaves_shell (UTL_OpenFile o fileName ro wo).
Proof.
  unfold UTL_OpenFile. apply leaves_shell_bind.
  - intros st. unfold sys_open. destruct fileName as [path|]; [|exact I].
    now destruct (os_open o path _).
  - intros r. destruct (fst r =? -1)%Z; [|apply leaves_shell_ret].
    apply leaves_shell_bind; [apply leaves_shell_emit|].
    intros _. apply leaves_shell_exit.
Qed.

Ltac leaves_shell_steps :=
  repeat first
    [ apply leaves_shell_ret | apply leaves_shell_emit | apply leaves_shell_exit
    | apply leaves_shell_dup2 | apply leaves_shell_close
    | apply leaves_shell_execvp | apply leaves_shell_open
    | (apply leaves_shell_bind; [|intros ?])
    | match goal with
      | |- leaves_shell (if ?b then _ else _) => destruct b
      end ].

Lemma ExternalCommand_child_leaves_shell (o : os) (command : cmdStruct) :
  leaves_shell (ExternalCommand_child o command).
Proof.
  unfold ExternalCommand_child, OPEN_FILE_WRITE, OPEN_FILE_READ.
  leaves_shell_steps.
Qed.

(** X17: the branch of the child never comes back into the loop of the
    shell: whatever the files and the program do, a run of ExternalCommand
    in which fork returned 0 ends in the new program or in exit. *)
Theorem ExternalCommand_child_never_returns (o : os) (command : cmdStruct)
    (s s' : shell) :
  os_fork o = 0%Z ->
  snd (ExternalCommand o command s) <> Running s'.
Proof.
  intros Hfork. unfold ExternalCommand. rewrite Hfork. cbn [Z.eqb].
  unfold run_child.
  pose proof (ExternalCommand_child_leaves_shell o command
                (mkChild shell_fds [ev_fork 0%Z])) as H.
  destruct (ExternalCommand_child o command (mkChild shell_fds [ev_fork 0%Z]))
    as [a st'|e st']; [destruct a|].
  cbn [snd]. destruct e; [contradiction|discriminate|discriminate].
Qed.

Lemma ExternalCommand_child_never_returns_witness :
  snd (ExternalCommand (with_fork 0 (calm_os "ls"))
         (mkCmd ["ls"] None None false false false) initial_shell)
  <> Running initial_shell.
Proof.
  apply (ExternalCommand_child_never_returns (with_fork 0 (calm_os "ls"))
           (mkCmd ["ls"] None None false false false) initial_shell initial_shell).
  reflexivity.
Defined.

(** X18: a file that does not open ends the child before execvp: after the
    failed open of the output path - or of the input path, when the output
    is not redirected - the child calls err with the errno of the open, the
    format of the message and the path, and exits with that errno; the
    program is never started. *)
Theorem child_open_failure_ends_the_child (o : os) (c : cmdStruct)
    (path : string) (errno : Z) :
  (isRedirectOutput c = true -> output c = Some path ->
   os_open o path write_flags = Some errno ->
   run_child (ExternalCommand_child o c) (mkChild shell_fds []) =
   ([ev_sigaction SIGCHLD SIG_DFL; ev_sigaction SIGTSTP SIG_IGN;
     ev_open (Some path) write_flags (-1)%Z;
     ev_err errno (line "Failed to open file %s.") (Some path);
     ev_exit errno],
    Exited errno))
  /\ (isRedirectOutput c = false -> isRedirectInput c = true ->
      input c = Some path ->
      os_open o path O_RDONLY = Some errno ->
      run_child (ExternalCommand_child o c) (mkChild shell_fds []) =
      ([ev_sigaction SIGCHLD SIG_DFL; ev_sigaction SIGTSTP SIG_IGN;
        ev_open (Some path) O_RDONLY (-1)%Z;
        ev_err errno (line "Failed to open file %s.") (Some path);
        ev_exit errno],
       Exited errno)).
Proof.
  destruct c as [a i ou ri ro bg]. cbn [isRedirectOutput isRedirectInput output input].
  split.
  - intros -> -> Hopen.
    unfold run_child, ExternalCommand_child, OPEN_FILE_WRITE, UTL_OpenFile,
      c_bind, c_emit, c_exit, sys_open.
    cbn [isRedirectOutput output c_fds c_trace].
    change (Z.lor (Z.lor O_WRONLY O_CREAT) O_TRUNC) with write_flags.
    rewrite Hopen. reflexivity.
  - intros -> -> -> Hopen.
    unfold run_child, ExternalCommand_child, OPEN_FILE_READ, UTL_OpenFile,
      c_bind, c_emit, c_exit, c_ret, sys_open.
    cbn [isRedirectOutput isRedirectInput input c_fds c_trace].
    rewrite Hopen. reflexivity.
Qed.

Ltac child_run_unfold H :=
  unfold run_child, ExternalCommand_child, OPEN_FILE_WRITE, OPEN_FILE_READ,
    UTL_OpenFile, c_bind, c_emit, c_ret, c_exit, sys_open, sys_dup2, sys_close,
    sys_execvp in H;
  cbn [isRedirectOutput isRedirectInput isBackground output input args negb
       c_fds c_trace] in H;
  change (Z.lor (Z.lor O_WRONLY O_CREAT) O_TRUNC) with 577%Z in H.

Ltac child_cases H o :=
  repeat match type of H with
         | context [os_open ?w ?path ?flag] =>
             destruct (os_open w path flag) eqn:?; cbn in H
         end;
  repeat match type of H with
         | context [os_execvp o ?file] =>
             destruct (os_execvp o file) eqn:?; cbn in H
         end.

(** X19: when execvp does not find the program, the child writes "<program>:
    no such file or directory", closes every descriptor it opened for the
    redirections, and exits with EXIT_FAILURE. *)
Theorem child_exec_failure (o : os) (c : cmdStruct) (prog : string)
    (rest : list string) (evs : list event) (p : proc) :
  args c = prog :: rest ->
  os_execvp o prog = false ->
  run_child (ExternalCommand_child o c) (mkChild shell_fds []) = (evs, p) ->
  In (ev_execvp (Some prog) (args c)) evs ->
  p = Exited EXIT_FAILURE
  /\ In (ev_stdout (line (prog ++ ": no such file or directory"))) evs
  /\ (forall (path : option string) (flags fd : Z),
        In (ev_open path flags fd) evs -> In (ev_close fd) evs).
Proof.
  intros Hargs Hexec Hrun Hin.
  destruct c as [a i ou ri ro bg]. cbn [args] in *. subst a.
  child_run_unfold Hrun.
  destruct bg, ro, ri, ou as [ou|], i as [i|]; cbn in Hrun;
    child_cases Hrun o; try congruence;
    inversion Hrun; subst; clear Hrun;
    cbn in Hin;
    try (repeat (destruct Hin as [Hin|Hin]; [discriminate|]); contradiction);
    (split; [reflexivity|]);
    (split; [unfold line; rewrite string_append_assoc; cbn; tauto|]);
    intros path flags fd Hopen; cbn in Hopen;
    repeat (destruct Hopen as [Hopen|Hopen];
            [try discriminate; inversion Hopen; subst; cbn; tauto|]);
    contradiction.
Qed.

Lemma child_exec_failure_witness :
  In (ev_stdout (line "badcmd: no such file or directory"))
     (fst (run_child
             (ExternalCommand_child
                (mkOs 1234 (line "badcmd > log") [] 0 [] (fun _ => 0%Z) []
                      (fun _ _ => None) (fun _ => false) (fun _ => true)
                      (fun _ => None) (fun _ => true))
                (mkCmd ["badcmd"] None (Some "log") false true false))
             (mkChild shell_fds [])))
  /\ In (ev_close 3%Z)
        (fst (run_child
                (ExternalCommand_child
                   (mkOs 1234 (line "badcmd > log") [] 0 [] (fun _ => 0%Z) []
                         (fun _ _ => None) (fun _ => false) (fun _ => true)
                         (fun _ => None) (fun _ => true))
                   (mkCmd ["badcmd"] None (Some "log") false true false))
                (mkChild shell_fds []))).
Proof.
  destruct (child_exec_failure
              (mkOs 1234 (line "badcmd > log") [] 0 [] (fun _ => 0%Z) []
                    (fun _ _ => None) (fun _ => false) (fun _ => true)
                    (fun _ => None) (fun _ => true))
              (mkCmd ["badcmd"] None (Some "log") false true false)
              "badcmd" [] _ _ eq_refl eq_refl eq_refl)
    as (_ & Hmsg & Hclose).
  - vm_compute. tauto.
  - split; [exact Hmsg|].
    apply (Hclose (Some "log") 577%Z 3%Z). vm_compute. tauto.
Defined.

Lemma foreground_child_started (o : os) (c : cmdStruct)
    (evs : list event) (prog : string) (argv : list string) (fds : fd_table) :
  isBackground c = false ->
  run_child (ExternalCommand_child o c) (mkChild shell_fds [])
  = (evs, Replaced prog argv fds) ->
  fd_lookup fds STDOUT_FILENO
  = foreground_file (isRedirectOutput c) (output c) write_flags
  /\ fd_lookup fds STDIN_FILENO
     = foreground_file (isRedirectInput c) (input c) O_RDONLY
  /\ fd_lookup fds STDERR_FILENO = Some Terminal
  /\ In (ev_sigaction SIGINT SIG_DFL) evs
  /\ argv = args c /\ hd_error (args c) = Some prog.
Proof.
  intros Hfg Hrun.
  destruct c as [a i ou ri ro bg]. cbn in Hfg. subst bg.
  unfold foreground_file.
  cbn [isRedirectOutput isRedirectInput output input args].
  child_run_unfold Hrun.
  change write_flags with 577%Z. change O_RDONLY with 0%Z in *.
  destruct ro, ri, ou as [ou|], i as [i|]; cbn in Hrun;
    child_cases Hrun o; try discriminate;
    (destruct a as [|file rest]; cbn in Hrun; [discriminate|]);
    child_cases Hrun o; try discriminate;
    inversion Hrun; subst; clear Hrun;
    repeat split; cbn; tauto.
Qed.

(** X20: the program of a foreground command starts with SIGINT back at its
    default action, with its standard output on the file named after > -
    opened for writing, created or truncated - and its standard input on the
    file named after <; a direction that is not redirected is left on what
    the shell has there.  It does start when the files open and execvp
    finds the program. *)
Theorem foreground_child_descriptors (o : os) (c : cmdStruct) :
  isBackground c = false ->
  (forall (evs : list event) (prog : string) (argv : list string) (fds : fd_table),
      run_child (ExternalCommand_child o c) (mkChild shell_fds [])
      = (evs, Replaced prog argv fds) ->
      fd_lookup fds STDOUT_FILENO
      = foreground_file (isRedirectOutput c) (output c) write_flags
      /\ fd_lookup fds STDIN_FILENO
         = foreground_file (isRedirectInput c) (input c) O_RDONLY
      /\ fd_lookup fds STDERR_FILENO = Some Terminal
      /\ In (ev_sigaction SIGINT SIG_DFL) evs
      /\ argv = args c /\ hd_error (args c) = Some prog)
  /\ (forall (prog : string) (rest : list string) (fout fin : file),
        args c = prog :: rest ->
        foreground_file (isRedirectOutput c) (output c) write_flags = Some fout ->
        foreground_file (isRedirectInput c) (input c) O_RDONLY = Some fin ->
        (forall (path : string) (flags : Z), os_open o path flags = None) ->
        os_execvp o prog = true ->
        exists (evs : list event) (fds : fd_table),
          run_child (ExternalCommand_child o c) (mkChild shell_fds [])
          = (evs, Replaced prog (args c) fds)
          /\ fd_lookup fds STDOUT_FILENO = Some fout
          /\ fd_lookup fds STDIN_FILENO = Some fin).
Proof.
  intros Hfg. split.
  - intros evs prog argv fds Hrun.
    now apply (foreground_child_started o c evs prog argv fds).
  - intros prog rest fout fin Hargs Hout Hin Hopen Hexec.
    destruct c as [a i ou ri ro bg]. cbn in Hfg, Hargs, Hout, Hin. subst bg a.
    unfold foreground_file in Hout, Hin.
    unfold run_child, ExternalCommand_child, OPEN_FILE_WRITE, OPEN_FILE_READ,
      UTL_OpenFile, c_bind, c_emit, c_ret, sys_open, sys_dup2, sys_execvp.
    cbn [isRedirectOutput isRedirectInput isBackground output input args negb
         hd_error c_fds c_trace].
    change (Z.lor (Z.lor O_WRONLY O_CREAT) O_TRUNC) with 577%Z.
    change write_flags with 577%Z in *. change O_RDONLY with 0%Z in *.
    destruct ro, ri, ou as [ou|], i as [i|]; cbn in Hout, Hin;
      try discriminate;
      inversion Hout; inversion Hin; subst;
      repeat (progress (cbn; rewrite ?Hopen, ?Hexec));
      eexists; eexists; (split; [reflexivity|]); split; reflexivity.
Qed.

Lemma foreground_child_descriptors_witness :
  exists (evs : list event) (fds : fd_table),
    run_child (ExternalCommand_child (calm_os "echo hi > out.txt")
                 (mkCmd ["echo"; "hi"] None (Some "out.txt") false true false))
              (mkChild shell_fds [])
    = (evs, Replaced "echo" ["echo"; "hi"] fds)
    /\ fd_lookup fds STDOUT_FILENO = Some (OpenFile "out.txt" write_flags)
    /\ fd_lookup fds STDIN_FILENO = Some Terminal.
Proof.
  destruct (foreground_child_descriptors (calm_os "echo hi > out.txt")
              (mkCmd ["echo"; "hi"] None (Some "out.txt") false true false)
              eq_refl) as [_ Hstarts].
  apply (Hstarts "echo" ["hi"]); reflexivity.
Defined.

(** X21: a background child never touches the action of SIGINT, which it
    inherits ignored from the shell, however far it gets; every child, fore-
    or background, first puts SIGCHLD back to its default action and sets
    SIGTSTP to be ignored. *)
Theorem background_child_keeps_SIGINT_ignored (o : os) (c : cmdStruct)
    (evs : list event) (p : proc) :
  run_child (ExternalCommand_child o c) (mkChild shell_fds []) = (evs, p) ->
  firstn 2 evs = [ev_sigaction SIGCHLD SIG_DFL; ev_sigaction SIGTSTP SIG_IGN]
  /\ (isBackground c = true ->
      forall act : disposition, ~ In (ev_sigaction SIGINT act) evs).
Proof.
  intros Hrun.
  destruct c as [a i ou ri ro bg]. cbn [isBackground].
  child_run_unfold Hrun.
  destruct bg, ro, ri, ou as [ou|], i as [i|]; cbn in Hrun;
    child_cases Hrun o;
    try (destruct a as [|file rest]; cbn in Hrun; child_cases Hrun o);
    inversion Hrun; subst; clear Hrun;
    (split; [reflexivity|]); intros Hbg; try discriminate;
    intros act Hin; cbn in Hin;
    repeat (destruct Hin as [Hin|Hin]; [discriminate|]); contradiction.
Qed.

Lemma background_child_keeps_SIGINT_ignored_witness :
  ~ In (ev_sigaction SIGINT SIG_DFL)
       (fst (run_child (ExternalCommand_child (calm_os "sleep 5 &")
                          (mkCmd ["sleep"; "5"] None None false false true))
                       (mkChild shell_fds []))).
Proof.
  destruct (background_child_keeps_SIGINT_ignored (calm_os "sleep 5 &")
              (mkCmd ["sleep"; "5"] None None false false true) _ _ eq_refl)
    as [_ H].
  exact (H eq_refl SIG_DFL).
Defined.

(** ** Built-in commands *)

(** X22: a blank line, a comment, cd and status run in the shell itself:
    RunCommand forks nothing, waits for nothing, signals nothing, and hands
    the shell state back as it got it - childStatus and the job table
    included - whatever chdir and the environment answer. *)
Theorem builtins_keep_the_shell_state (o : os) (c : cmdStruct) (s : shell) :
  RunCommand_dispatch c <> External ->
  RunCommand_dispatch c <> BuiltinExit ->
  snd (RunCommand o c s) = Running s
  /\ (forall ev : event,
        In ev (fst (RunCommand o c s)) ->
        match ev with
        | ev_stdout _ | ev_stderr _ | ev_chdir _ _ => True
        | _ => False
        end).
Proof.
  intros Hext Hexit. unfold RunCommand.
  destruct (RunCommand_dispatch c); try contradiction.
  - split; [reflexivity|intros ev []].
  - split; [reflexivity|intros ev []].
  - unfold MyChangeDir.
    destruct (nth_error (args c) 1) as [path|].
    + destruct (os_chdir o path); (split; [reflexivity|]);
        intros ev Hin; cbn in Hin;
        repeat (destruct Hin as [<-|Hin]; [exact I|]); contradiction.
    + destruct (os_getenv o HOME_ENV) as [home|];
        [destruct (os_chdir o home)|]; (split; [reflexivity|]);
        intros ev Hin; cbn in Hin;
        repeat (destruct Hin as [<-|Hin]; [exact I|]); contradiction.
  - split; [reflexivity|]. intros ev Hin. cbn in Hin.
    destruct Hin as [<-|[]]. exact I.
Qed.

Lemma builtins_keep_the_shell_state_witness :
  snd (RunCommand (calm_os "cd /tmp")
         (mkCmd ["cd"; "/tmp"] None None false false false)
         (set_childStatus 1 initial_shell))
  = Running (set_childStatus 1 initial_shell).
Proof.
  apply (builtins_keep_the_shell_state (calm_os "cd /tmp")
           (mkCmd ["cd"; "/tmp"] None None false false false)
           (set_childStatus 1 initial_shell)); discriminate.
Defined.

(** ** The notice of a mode change *)

(** X23: when no notice is pending - backgroundIgnoreSet and
    backgroundUnignoreSet are both clear - a mode change is announced once.
    Delivered while a foreground child is waited for, SIGTSTP writes
    nothing; the next GetInput writes the notice of the new mode before the
    prompt, and the one after it the prompt alone.  Delivered at any other
    time, the handler writes the notice and a prompt itself, and the next
    GetInput writes the prompt alone. *)
Theorem mode_notice_written_once (o1 o2 : os) (n : nat) (s : shell) :
  backgroundIgnoreSet s = false ->
  backgroundUnignoreSet s = false ->
  let s1 := set_foregroundChild false (fst (HandleSIGTSTP s)) in
  let notice := if ignoreBackground s then exiting_notice else entering_notice in
  ignoreBackground s1 = negb (ignoreBackground s)
  /\ (foregroundChild s = true ->
      snd (HandleSIGTSTP s) = []
      /\ snd (fst (GetInput o1 n s1)) = [ev_stdout notice; ev_stdout ": "]
      /\ snd (fst (GetInput o2 n (fst (fst (GetInput o1 n s1)))))
         = [ev_stdout ": "])
  /\ (foregroundChild s = false ->
      snd (HandleSIGTSTP s) = [ev_stdout (notice ++ ": ")]
      /\ snd (fst (GetInput o1 n s1)) = [ev_stdout ": "]).
Proof.
  intros H1 H2 s1 notice. subst s1 notice.
  unfold HandleSIGTSTP, GetInput, entering_notice, exiting_notice.
  destruct s as [slots st f1 f2 f3 f4 f5]. cbn in H1, H2. subst f1 f2.
  destruct f5, f4; cbn; repeat split; try discriminate; reflexivity.
Qed.

Lemma mode_notice_written_once_witness :
  snd (HandleSIGTSTP (set_foregroundChild true initial_shell)) = []
  /\ snd (fst (GetInput (calm_os "ls") BUF_SIZE
                 (set_foregroundChild false
                    (fst (HandleSIGTSTP (set_foregroundChild true initial_shell))))))
     = [ev_stdout entering_notice; ev_stdout ": "].
Proof.
  destruct (mode_notice_written_once (calm_os "ls") (calm_os "ls") BUF_SIZE
              (set_foregroundChild true initial_shell) eq_refl eq_refl)
    as (_ & Hwait & _).
  destruct (Hwait eq_refl) as (Ha & Hb & _).
  split; [exact Ha|exact Hb].
Defined.

(** With a notice pending it is otherwise: two deliveries during one wait
    leave the mode as it was and both flags set, and the next two prompts
    announce a mode change each. *)
Example two_notices_pending :
  let s := fst (HandleSIGTSTP
                  (fst (HandleSIGTSTP (set_foregroundChild true initial_shell)))) in
  let s1 := set_foregroundChild false s in
  ignoreBackground s = false
  /\ snd (fst (GetInput (calm_os "ls") BUF_SIZE s1))
     = [ev_stdout entering_notice; ev_stdout ": "]
  /\ snd (fst (GetInput (calm_os "ls") BUF_SIZE
                 (fst (fst (GetInput (calm_os "ls") BUF_SIZE s1)))))
     = [ev_stdout exiting_notice; ev_stdout ": "].
Proof. repeat split. Qed.

(** ** Opening a file *)

Lemma lowest_free_from (tries : nat) :
  forall (fd : Z) (t : fd_table), (fd <= lowest_free tries fd t)%Z.
Proof.
  induction tries as [|tries IH]; intros fd t; simpl; [lia|].
  destruct (fd_lookup t fd); [|lia].
  specialize (IH (fd + 1)%Z t). lia.
Qed.

Lemma fd_lookup_set (t : fd_table) (fd : Z) (f : file) :
  fd_lookup (fd_set t fd f) fd = Some f.
Proof. unfold fd_lookup, fd_set. cbn. now rewrite Z.eqb_refl. Qed.

(** X24: UTL_OpenFile never hands -1 to its caller.  Either the file opens
    and it returns a descriptor that is not negative and now refers to that
    file - opened read-only when isReadOnly is set, whatever isWriteOnly
    says, and for writing with creation and truncation when only
    isWriteOnly is - or the process ends there, with the errno of the open
    as its exit status and the descriptors as they were. *)
Theorem UTL_OpenFile_returns_an_open_descriptor (o : os)
    (fileName : option string) (isReadOnly isWriteOnly : bool)
    (st : child_state) :
  let flag := if isReadOnly then O_RDONLY
              else if isWriteOnly then write_flags else 0%Z in
  match UTL_OpenFile o fileName isReadOnly isWriteOnly st with
  | Go fd st' =>
      (0 <= fd)%Z
      /\ exists path : string,
           fileName = Some path
           /\ os_open o path flag = None
           /\ fd_lookup (c_fds st') fd = Some (OpenFile path flag)
  | Halt e st' =>
      c_fds st' = c_fds st
      /\ exists errno : Z,
           e = Exited errno
           /\ (fileName = None
               \/ exists path : string,
                    fileName = Some path /\ os_open o path flag = Some errno)
  end.
Proof.
  cbv zeta. unfold UTL_OpenFile, c_bind, c_emit, c_exit, c_ret, sys_open.
  fold write_flags.
  set (flag := if isReadOnly then O_RDONLY
               else if isWriteOnly then write_flags else 0%Z).
  destruct fileName as [path|].
  - destruct (os_open o path flag) as [errno|] eqn:E.
    + cbn. split; [reflexivity|]. exists errno. split; [reflexivity|].
      right. now exists path.
    + cbn [fst snd].
      pose proof (lowest_free_from (List.length (c_fds st)) 0 (c_fds st)) as Hfd.
      destruct (Z.eqb_spec (lowest_free (List.length (c_fds st)) 0 (c_fds st)) (-1))
        as [Heq|Hne]; [lia|].
      split; [assumption|]. exists path.
      split; [reflexivity|]. split; [exact E|].
      cbn [c_fds]. apply fd_lookup_set.
  - cbn. split; [reflexivity|]. exists EFAULT. split; [reflexivity|now left].
Qed.

(** ** A pass of the loop of main *)

(** X25: a pass of the loop of main over a blank line or a comment that
    ParseCommand returns from, with no notice pending, no signal at the
    prompt and childTerminated clear, writes the prompt and nothing else -
    no process is made, no child is waited for - and leaves the shell state
    as it was. *)
Theorem main_pass_blank_or_comment (o : os) (s : shell) (ret : Z)
    (parsed : cmdStruct) :
  backgroundIgnoreSet s = false ->
  backgroundUnignoreSet s = false ->
  childTerminated s = false ->
  os_signals_at_prompt o = [] ->
  pass_command o s = Done (ret, parsed) ->
  RunCommand_dispatch parsed = BlankLine
  \/ RunCommand_dispatch parsed = CommentLine ->
  main_pass o s = Some ([ev_stdout ": "], Running s).
Proof.
  intros H1 H2 H3 Hsig Hparsed Hd.
  unfold main_pass, pass_command, pass_shell, GetInput in *.
  rewrite H1, H2 in *. rewrite Hsig in *. cbn [deliver_all fst snd] in *.
  rewrite Hparsed. unfold RunCommand. destruct Hd as [-> | ->]; now rewrite H3.
Qed.

Lemma main_pass_blank_or_comment_witness :
  main_pass (calm_os "#comment with words") initial_shell
  = Some ([ev_stdout ": "], Running initial_shell).
Proof.
  apply (main_pass_blank_or_comment (calm_os "#comment with words") initial_shell
           EXIT_SUCCESS
           (mkCmd ["#comment"; "with"; "words"] None None false false false));
    try reflexivity.
  right. reflexivity.
Defined.

(** X26: on the side of the parent, a fork that fails costs the shell
    nothing but a line on the standard error, and a background command
    comes back at once: ExternalCommand writes the pid of the child, waits
    for nothing, leaves childStatus alone, and has the pid in the job table
    if a slot was free. *)
Theorem ExternalCommand_without_waiting (o : os) (c : cmdStruct) (s : shell) :
  (os_fork o = (-1)%Z ->
   ExternalCommand o c s =
   ([ev_fork (-1)%Z; ev_stderr (line "Failed to fork child process")], Running s))
  /\ ((0 < os_fork o)%Z -> isBackground c = true ->
      ExternalCommand o c s =
      ([ev_fork (os_fork o);
        ev_stdout (line ("background pid is " ++ CLib.fmt_d (os_fork o)))],
       Running (AddChildPid (os_fork o) s))
      /\ childStatus (AddChildPid (os_fork o) s) = childStatus s
      /\ (In 0%Z (childPids s) ->
          In (os_fork o) (childPids (AddChildPid (os_fork o) s)))).
Proof.
  split.
  - intros H. unfold ExternalCommand. rewrite H. reflexivity.
  - intros Hpid Hbg. unfold ExternalCommand, ExternalCommand_parent.
    destruct (Z.eqb_spec (os_fork o) (-1)) as [E|_]; [lia|].
    destruct (Z.eqb_spec (os_fork o) 0) as [E|_]; [lia|].
    rewrite Hbg. cbn [negb]. unfold line. rewrite string_append_assoc.
    split; [reflexivity|]. split; [reflexivity|].
    destruct s as [slots st f1 f2 f3 f4 f5].
    unfold AddChildPid, set_childPids. cbn [childPids].
    induction slots as [|slot rest IH]; intros H; [contradiction|].
    simpl. destruct (Z.eqb_spec slot 0) as [->|Hnz]; [now left|].
    right. apply IH. destruct H as [H|H]; [contradiction|assumption].
Qed.
